(** * Character discovery and export: a shallow embedding

    This development embeds the discovery engine of [character_manager.py]
    ([CharacterManager.discover_characters], [_scan_location],
    [_analyze_character_directory]) and the archive builder and size
    estimator of [zip_utils.py] ([CharacterZipper.create_character_zip],
    [create_batch_zip], [get_estimated_zip_size]).

    Modelling choices, all of them local to the definitions below:

    - The filesystem is a finite tree of regular files and directories.  A
      directory carries its listing in enumeration order (the order in which
      [Path.iterdir] and [Path.glob] yield entries).  Every node is readable;
      the OS errors that such a tree can produce in the embedded code are
      [Path.iterdir] on something that is not a directory and
      [shutil.rmtree] on a regular file.
    - Every node carries its size, its creation time and its modification
      time.  [ZipFile.write] dates an entry with the local time of the
      file's modification and fails when the year is before 1980
      ([ValueError]) or after 2107 ([struct.error]); local time is UTC.
      [ZipFile.writestr] dates its entry with the clock, which is taken to
      be in that range.
    - [pathlib.Path] values are lists of components from the filesystem
      root; [Path.name] is the last component.
    - Glob patterns are matched by [fnmatch], case sensitively (POSIX).
    - [json.load] is represented by the parsed document stored with a file.
    - [datetime] values and file times are integers counting microseconds
      (from the epoch); a [timedelta] is their difference and [.seconds] is
      its normalised seconds field.
    - [int * float] and [int(float)] are evaluated in binary64 with the
      Standard Library's [SpecFloat].
    - An archive is the list of its entries in the order they are written.
      Entry names are recorded as they are handed to [ZipFile.write] and
      [ZipFile.writestr] (a directory gets a trailing slash); [zipfile]
      leaves a name built from directory-entry names as it is.
    - [list.sort(key=..., reverse=True)] is represented by a stable
      insertion sort. *)

From Stdlib Require Import List String Ascii Bool Arith ZArith NArith Lia.
From Stdlib Require Import Permutation Sorted.
From Stdlib Require Import SpecFloat.
Import ListNotations.

Set Warnings "-register-all".

Local Open Scope string_scope.
Local Open Scope list_scope.

(** ** Exceptions and the error monad *)

Definition Path := list string.

Inductive exn :=
| NotADirectoryError (p : Path)
| FileNotFoundError (p : Path)
| OverflowError
| ValueError
| StructError.

Inductive result (A : Type) :=
| Ok (a : A)
| Raise (e : exn).
Arguments Ok {A} a.
Arguments Raise {A} e.

Definition bind {A B} (m : result A) (k : A -> result B) : result B :=
  match m with
  | Ok a => k a
  | Raise e => Raise e
  end.

Notation "x <- m ;; k" := (bind m (fun x => k))
  (at level 61, m at next level, right associativity).

(** [for x in xs: out.extend(f x)] where [f] may raise. *)
Fixpoint flat_mapM {A B} (f : A -> result (list B)) (xs : list A)
  : result (list B) :=
  match xs with
  | [] => Ok []
  | x :: xs' =>
      ys <- f x ;;
      zs <- flat_mapM f xs' ;;
      Ok (ys ++ zs)
  end.

(** ** JSON documents and Python truthiness *)

Inductive json :=
| JNull
| JBool (b : bool)
| JNumber (n : Z)
| JFloat (f : spec_float)
| JString (s : string)
| JArray (items : list json)
| JObject (members : list (string * json)).

(** A Python value of optional type: [None] is the JSON [null]. *)
Definition py_value (j : json) : option json :=
  match j with
  | JNull => None
  | _ => Some j
  end.

(** [bool(j)] *)
Definition truthy (j : json) : bool :=
  match j with
  | JNull => false
  | JBool b => b
  | JNumber n => negb (n =? 0)%Z
  | JFloat (S754_zero _) => false
  | JFloat _ => true
  | JString s => negb (s =? "")
  | JArray items => match items with [] => false | _ => true end
  | JObject members => match members with [] => false | _ => true end
  end.

(** [if x:] on an [Optional] value. *)
Definition truthy_opt (x : option json) : bool :=
  match x with
  | Some j => truthy j
  | None => false
  end.

(** [d.get(k)] on a dict. *)
Definition dict_get {V} (d : list (string * V)) (k : string) : option V :=
  option_map snd (find (fun kv => fst kv =? k) d).

(** [k in d] *)
Definition dict_mem {V} (d : list (string * V)) (k : string) : bool :=
  existsb (fun kv => fst kv =? k) d.

(** [d[k] = v]: an existing key keeps its position, a new one goes last. *)
Fixpoint dict_set {V} (d : list (string * V)) (k : string) (v : V)
  : list (string * V) :=
  match d with
  | [] => [(k, v)]
  | (k', v') :: d' =>
      if k' =? k then (k', v) :: d' else (k', v') :: dict_set d' k v
  end.

(** [sum(d.values())] *)
Definition sum_values (d : list (string * nat)) : nat :=
  fold_right (fun kv acc => snd kv + acc) 0 d.

(** ** The filesystem *)

Record stat_result := { st_size : N; st_ctime : Z; st_mtime : Z }.

Inductive node :=
| File (st : stat_result) (document : option json)
| Dir (st : stat_result) (listing : list (string * node)).

Definition child (listing : list (string * node)) (c : string) : option node :=
  option_map snd (find (fun e => fst e =? c) listing).

Fixpoint resolve (fs : node) (p : Path) : option node :=
  match p with
  | [] => Some fs
  | c :: p' =>
      match fs with
      | Dir _ listing =>
          match child listing c with
          | Some n => resolve n p'
          | None => None
          end
      | File _ _ => None
      end
  end.

(** [p / c] *)
Definition join (p : Path) (c : string) : Path := p ++ [c].
Notation "p // c" := (join p c) (at level 40, left associativity).

(** [p.name] *)
Definition name (p : Path) : string := last p "".

(** [p.exists()] *)
Definition exists_ (fs : node) (p : Path) : bool :=
  match resolve fs p with
  | Some _ => true
  | None => false
  end.

(** [p.is_dir()] *)
Definition is_dir (fs : node) (p : Path) : bool :=
  match resolve fs p with
  | Some (Dir _ _) => true
  | _ => false
  end.

(** [p.stat()] *)
Definition stat (fs : node) (p : Path) : result stat_result :=
  match resolve fs p with
  | Some (File st _) => Ok st
  | Some (Dir st _) => Ok st
  | None => Raise (FileNotFoundError p)
  end.

(** [p.iterdir()] *)
Definition iterdir (fs : node) (p : Path) : result (list Path) :=
  match resolve fs p with
  | Some (Dir _ listing) => Ok (map (fun e => p // fst e) listing)
  | Some (File _ _) => Raise (NotADirectoryError p)
  | None => Raise (FileNotFoundError p)
  end.

(** [fnmatch.fnmatchcase] for patterns made of literal characters and [*]. *)
Fixpoint fnmatch (pat s : string) : bool :=
  match pat with
  | EmptyString =>
      match s with
      | EmptyString => true
      | String _ _ => false
      end
  | String c pat' =>
      if Ascii.eqb c "*" then
        (fix star (t : string) : bool :=
           fnmatch pat' t
           || match t with
              | EmptyString => false
              | String _ t' => star t'
              end) s
      else
        match s with
        | EmptyString => false
        | String d s' => Ascii.eqb c d && fnmatch pat' s'
        end
  end.

(** [p.glob(pat)] for a pattern without a separator: the entries of [p]
    whose name matches; nothing when [p] is not a directory. *)
Definition glob (fs : node) (p : Path) (pat : string) : list Path :=
  match resolve fs p with
  | Some (Dir _ listing) =>
      map (fun e => p // fst e) (filter (fun e => fnmatch pat (fst e)) listing)
  | _ => []
  end.

(** [s.startswith(pre)] *)
Definition startswith (s pre : string) : bool := String.prefix pre s.

(** ** Character records ([CharacterInfo]) *)

Record CharacterInfo := {
  session_id : string;
  character_id : string;
  path : Path;
  creation_date : Z;
  base_image_path : option Path;
  base_metadata : option json;
  realistic_count : nat;
  styled_counts : list (string * nat);
  total_images : nat;
  character_config : option json;
  generation_time : option Z;
  prompt : option json
}.

(** [char.base_image_path and char.base_image_path.exists()] *)
Definition base_image_exists (fs : node) (c : CharacterInfo) : bool :=
  match base_image_path c with
  | Some p => exists_ fs p
  | None => false
  end.

Definition char_key (c : CharacterInfo) : string * string :=
  (session_id c, character_id c).

Definition key_eqb (k1 k2 : string * string) : bool :=
  (fst k1 =? fst k2) && (snd k1 =? snd k2).

(** ** [_analyze_character_directory] *)

Definition base_image_candidates : list string :=
  ["Base-Character.png"; "Base-Image.png"].

(** The block that loads the base metadata: [open], [json.load], then the
    extraction of prompt and character config, all inside one
    [try ... except Exception].  The result is the triple
    (base_metadata, prompt, character_config) the record is left with. *)
Definition load_base_metadata (fs : node) (base_metadata_path : Path)
  : option json * option json * option json :=
  match resolve fs base_metadata_path with
  | Some (File _ (Some doc)) =>
      let base_metadata := py_value doc in
      if truthy_opt base_metadata then
        match doc with
        | JObject members =>
            (base_metadata,
             match dict_get members "prompt" with
             | Some v => py_value v
             | None => None
             end,
             if dict_mem members "parameters" then Some (JObject []) else None)
        | _ => (base_metadata, None, None)   (* [.get] raises; caught *)
        end
      else (base_metadata, None, None)
  | _ => (None, None, None)                  (* [open]/[json.load] raised *)
  end.

(** The loop over [styles_path.iterdir()] filling [styled_counts]. *)
Definition count_styles (fs : node) (style_dirs : list Path)
  : list (string * nat) :=
  fold_left
    (fun counts style_dir =>
       if is_dir fs style_dir
       then dict_set counts (name style_dir)
                     (List.length (glob fs style_dir "*.png"))
       else counts)
    style_dirs [].

Definition analyze_body (fs : node) (sid cid : string) (char_path : Path)
  : result (option CharacterInfo) :=
  st <- stat fs char_path ;;
  let creation := st_ctime st in
  let base_image :=
    find (exists_ fs) (map (fun c => char_path // c) base_image_candidates) in
  let base_metadata_path :=
    if exists_ fs (char_path // "base_character_metadata.json")
    then char_path // "base_character_metadata.json"
    else char_path // "base_image_metadata.json" in
  let '(metadata, the_prompt, config) :=
    if exists_ fs base_metadata_path
    then load_base_metadata fs base_metadata_path
    else (None, None, None) in
  let consistency_path := char_path // "ConsistencyTests" in
  let realistic :=
    if exists_ fs consistency_path
    then List.length (glob fs consistency_path "Realistic_*.png")
    else 0 in
  let styles_path := char_path // "Styles" in
  styled <- (if exists_ fs styles_path
             then style_dirs <- iterdir fs styles_path ;;
                  Ok (count_styles fs style_dirs)
             else Ok []) ;;
  let total :=
    (match base_image with
     | Some p => if exists_ fs p then 1 else 0
     | None => 0
     end) + realistic + sum_values styled in
  let char_info :=
    {| session_id := sid; character_id := cid; path := char_path;
       creation_date := creation; base_image_path := base_image;
       base_metadata := metadata; realistic_count := realistic;
       styled_counts := styled; total_images := total;
       character_config := config; generation_time := None;
       prompt := the_prompt |} in
  Ok (if (0 <? total)%nat then Some char_info else None).

Definition _analyze_character_directory (fs : node) (sid cid : string)
  (char_path : Path) : option CharacterInfo :=
  match analyze_body fs sid cid char_path with
  | Ok r => r
  | Raise _ => None
  end.

(** ** [_scan_location] *)

Definition analyzed (fs : node) (sid cid : string) (char_path : Path)
  : list CharacterInfo :=
  match _analyze_character_directory fs sid cid char_path with
  | Some char_info => [char_info]
  | None => []
  end.

(** Pattern 1, the standard layout [Session_*/Char_*]. *)
Definition scan_standard (fs : node) (location : Path) : list CharacterInfo :=
  flat_map
    (fun session_path =>
       if is_dir fs session_path then
         flat_map
           (fun char_path =>
              if is_dir fs char_path
              then analyzed fs (name session_path) (name char_path) char_path
              else [])
           (glob fs session_path "Char_*")
       else [])
    (glob fs location "Session_*").

Definition any_glob (fs : node) (p : Path) (pat : string) : bool :=
  match glob fs p pat with
  | [] => false
  | _ :: _ => true
  end.

(** Pattern 2, the body of the loop over [location.iterdir()]. *)
Definition scan_candidate_session (fs : node) (potential_session : Path)
  : result (list CharacterInfo) :=
  if negb (is_dir fs potential_session) then Ok []
  else if startswith (name potential_session) "Session_" then Ok []
  else if startswith (name potential_session) "."
          || (name potential_session =? "__pycache__") then Ok []
  else
    char_paths <- iterdir fs potential_session ;;
    Ok (flat_map
          (fun char_path =>
             if negb (is_dir fs char_path) then []
             else if any_glob fs char_path "Base-*.png"
                     || any_glob fs char_path "*metadata.json"
             then analyzed fs (name potential_session) (name char_path)
                           char_path
             else [])
          char_paths).

(** Pattern 2, every other directory with character-like subdirectories. *)
Definition scan_non_standard (fs : node) (location : Path)
  : result (list CharacterInfo) :=
  sessions <- iterdir fs location ;;
  flat_mapM (scan_candidate_session fs) sessions.

Definition _scan_location (fs : node) (location : Path) : list CharacterInfo :=
  match (legacy <- scan_non_standard fs location ;;
         Ok (scan_standard fs location ++ legacy)) with
  | Ok characters => characters
  | Raise _ => []
  end.

(** ** [CharacterManager] and [discover_characters] *)

Record CharacterManager := {
  scan_locations : list Path;
  _characters_cache : option (list CharacterInfo);
  _last_scan_time : option Z
}.

(** [CharacterManager(root_directory)] *)
Definition init (root_directory : Path) : CharacterManager :=
  {| scan_locations := [root_directory];
     _characters_cache := None;
     _last_scan_time := None |}.

(** [timedelta.seconds] of a difference of [delta] microseconds: a
    [timedelta] is normalised to days, seconds in [0, 86400) and
    microseconds in [0, 10^6), and [.seconds] is the middle field. *)
Definition timedelta_seconds (delta : Z) : Z :=
  ((delta / 1000000) mod 86400)%Z.

(** The loop over [self.scan_locations]. *)
Definition scan_all (fs : node) (locations : list Path) : list CharacterInfo :=
  flat_map
    (fun scan_location =>
       if exists_ fs scan_location then _scan_location fs scan_location
       else [])
    locations.

Definition key_seen (seen : list (string * string)) (k : string * string)
  : bool :=
  existsb (key_eqb k) seen.

(** The duplicate-removal loop, with its [seen] set and its
    [unique_characters] list. *)
Fixpoint remove_duplicates (characters : list CharacterInfo)
  (seen : list (string * string)) (unique_characters : list CharacterInfo)
  : list CharacterInfo :=
  match characters with
  | [] => unique_characters
  | char :: rest =>
      if key_seen seen (char_key char)
      then remove_duplicates rest seen unique_characters
      else remove_duplicates rest (char_key char :: seen)
                             (unique_characters ++ [char])
  end.

(** [characters.sort(key=lambda x: x.creation_date, reverse=True)]:
    newest first, equal dates in their original order. *)
Fixpoint insert_newest_first (char : CharacterInfo) (l : list CharacterInfo)
  : list CharacterInfo :=
  match l with
  | [] => [char]
  | d :: l' =>
      if (creation_date char <? creation_date d)%Z
      then d :: insert_newest_first char l'
      else char :: l
  end.

Definition sort_newest_first (l : list CharacterInfo) : list CharacterInfo :=
  fold_right insert_newest_first [] l.

(** A scan that bypasses the cache: the body of [discover_characters] after
    the cache test, up to the sort. *)
Definition fresh_scan (fs : node) (locations : list Path)
  : list CharacterInfo :=
  sort_newest_first (remove_duplicates (scan_all fs locations) [] []).

(** The cache test at the top of [discover_characters]. *)
Definition cache_hit (self : CharacterManager) (current_time : Z)
  (force_refresh : bool) : option (list CharacterInfo) :=
  match _characters_cache self, _last_scan_time self with
  | Some cached, Some last =>
      if negb force_refresh
         && (timedelta_seconds (current_time - last) <? 30)%Z
      then Some cached
      else None
  | _, _ => None
  end.

Definition discover_characters (fs : node) (current_time : Z)
  (force_refresh : bool) (self : CharacterManager)
  : list CharacterInfo * CharacterManager :=
  match cache_hit self current_time force_refresh with
  | Some cached => (cached, self)
  | None =>
      let characters := fresh_scan fs (scan_locations self) in
      (characters,
       {| scan_locations := scan_locations self;
          _characters_cache := Some characters;
          _last_scan_time := Some current_time |})
  end.

(** [delete_character]: the part that concerns the manager.  The removal of
    the directory itself is a change of the filesystem, which every later
    call receives as its own argument.  [shutil.rmtree] raises on a path
    that is not a directory; the [except] clause then returns a failure and
    the cache is left as it was. *)
Definition delete_character (fs : node) (char_info : CharacterInfo)
  (self : CharacterManager) : bool * CharacterManager :=
  if exists_ fs (path char_info)
  then if is_dir fs (path char_info)
       then (true,
             {| scan_locations := scan_locations self;
                _characters_cache := None;
                _last_scan_time := _last_scan_time self |})
       else (false, self)
  else (false, self).

(** The states a manager goes through. *)
Inductive reachable : CharacterManager -> Prop :=
| reach_init : forall root, reachable (init root)
| reach_discover : forall self fs t force,
    reachable self ->
    reachable (snd (discover_characters fs t force self))
| reach_delete : forall self fs char_info,
    reachable self ->
    reachable (snd (delete_character fs char_info self)).

(** ** Archives ([zip_utils.py]) *)

(** What [writestr] stores: the text is generated from these inputs (and
    from the clock, for the export dates). *)
Inductive document :=
| BaseMetadataJson (metadata : json)
| CharacterSummaryJson (char_info : CharacterInfo)
| ReadmeTxt (char_info : CharacterInfo)
| BatchSummaryJson (characters : list CharacterInfo)
| BatchReadmeTxt (characters : list CharacterInfo).

Inductive payload :=
| FromDisk (source : Path)
| FromString (doc : document).

Record entry := { arcname : string; content : payload }.

(** The date of an entry written from disk:
    [time.localtime(st.st_mtime)[0:6]].  [ZipInfo] refuses a year before
    1980 with a [ValueError], and packing the header of an entry dated
    after 2107 raises [struct.error].  The bounds are 1980-01-01T00:00:00Z
    and 2108-01-01T00:00:00Z in seconds from the epoch. *)
Definition zip_date_time (st : stat_result) : result unit :=
  if (st_mtime st <? 315532800 * 1000000)%Z then Raise ValueError
  else if (4354819200 * 1000000 <=? st_mtime st)%Z then Raise StructError
  else Ok tt.

(** [zipf.write(filename, arcname)] *)
Definition zip_write (fs : node) (filename : Path) (arc : string)
  : result entry :=
  match resolve fs filename with
  | Some (File st _) =>
      u <- zip_date_time st ;;
      Ok {| arcname := arc; content := FromDisk filename |}
  | Some (Dir st _) =>
      u <- zip_date_time st ;;
      Ok {| arcname := (arc ++ "/")%string; content := FromDisk filename |}
  | None => Raise (FileNotFoundError filename)
  end.

(** [zipf.writestr(arcname, data)] *)
Definition zip_writestr (arc : string) (doc : document) : entry :=
  {| arcname := arc; content := FromString doc |}.

(** [for f in files: zipf.write(f, f"{folder}{f.name}")] *)
Definition write_files (fs : node) (folder : string) (files : list Path)
  : result (list entry) :=
  flat_mapM
    (fun f => e <- zip_write fs f (folder ++ name f)%string ;; Ok [e])
    files.

Inductive message :=
| ZipCreated (character_id : string)
| BatchZipCreated (count : nat)
| ErrorCreatingZip (e : exn)
| ErrorCreatingBatchZip (e : exn)
| NoCharactersSelected.

(** The [with zipfile.ZipFile(...)] block of [create_character_zip]. *)
Definition character_zip_body (fs : node) (char_info : CharacterInfo)
  (include_metadata : bool) : result (list entry) :=
  base <- match base_image_path char_info with
          | Some p =>
              if exists_ fs p
              then e <- zip_write fs p (name p) ;; Ok [e]
              else Ok []
          | None => Ok []
          end ;;
  let metadata :=
    match base_metadata char_info with
    | Some j =>
        if include_metadata && truthy j
        then [zip_writestr "base_character_metadata.json" (BaseMetadataJson j)]
        else []
    | None => []
    end in
  let consistency_path := path char_info // "ConsistencyTests" in
  consistency <-
    (if exists_ fs consistency_path then
       images <- write_files fs "ConsistencyTests/"
                   (glob fs consistency_path "*.png") ;;
       metas <- (if include_metadata
                 then write_files fs "ConsistencyTests/"
                        (glob fs consistency_path "*.json")
                 else Ok []) ;;
       Ok (images ++ metas)
     else Ok []) ;;
  let styles_path := path char_info // "Styles" in
  styles <-
    (if exists_ fs styles_path then
       style_dirs <- iterdir fs styles_path ;;
       flat_mapM
         (fun style_dir =>
            if is_dir fs style_dir then
              let folder := ("Styles/" ++ name style_dir ++ "/")%string in
              images <- write_files fs folder (glob fs style_dir "*.png") ;;
              metas <- (if include_metadata
                        then write_files fs folder (glob fs style_dir "*.json")
                        else Ok []) ;;
              Ok (images ++ metas)
            else Ok [])
         style_dirs
     else Ok []) ;;
  let summary :=
    if include_metadata
    then [zip_writestr "character_summary.json"
            (CharacterSummaryJson char_info);
          zip_writestr "README.txt" (ReadmeTxt char_info)]
    else [] in
  Ok (base ++ metadata ++ consistency ++ styles ++ summary).

(** [create_character_zip]: the returned triple, and the entries of the
    archive left at the temporary path [temp_zip_path] when the build
    completes.  A temporary file abandoned by a failed build is not
    returned to the caller and is not represented. *)
Definition create_character_zip (fs : node) (temp_zip_path : string)
  (char_info : CharacterInfo) (include_metadata : bool)
  : (bool * message * option string) * option (list entry) :=
  match character_zip_body fs char_info include_metadata with
  | Ok entries =>
      ((true, ZipCreated (character_id char_info), Some temp_zip_path),
       Some entries)
  | Raise e => ((false, ErrorCreatingZip e, None), None)
  end.

(** [f"{char_info.session_id}_{char_info.character_id}"] *)
Definition char_folder (char_info : CharacterInfo) : string :=
  (session_id char_info ++ "_" ++ character_id char_info)%string.

(** One iteration of the loop over [characters] in [create_batch_zip]. *)
Definition batch_character_entries (fs : node) (include_metadata : bool)
  (char_info : CharacterInfo) : result (list entry) :=
  let folder := char_folder char_info in
  base <- match base_image_path char_info with
          | Some p =>
              if exists_ fs p
              then e <- zip_write fs p (folder ++ "/" ++ name p)%string ;;
                   Ok [e]
              else Ok []
          | None => Ok []
          end ;;
  let metadata :=
    match base_metadata char_info with
    | Some j =>
        if include_metadata && truthy j
        then [zip_writestr (folder ++ "/base_character_metadata.json")%string
                (BaseMetadataJson j)]
        else []
    | None => []
    end in
  let consistency_path := path char_info // "ConsistencyTests" in
  consistency <-
    (if exists_ fs consistency_path then
       images <- write_files fs (folder ++ "/ConsistencyTests/")%string
                   (glob fs consistency_path "*.png") ;;
       metas <- (if include_metadata
                 then write_files fs (folder ++ "/ConsistencyTests/")%string
                        (glob fs consistency_path "*.json")
                 else Ok []) ;;
       Ok (images ++ metas)
     else Ok []) ;;
  let styles_path := path char_info // "Styles" in
  styles <-
    (if exists_ fs styles_path then
       style_dirs <- iterdir fs styles_path ;;
       flat_mapM
         (fun style_dir =>
            if is_dir fs style_dir then
              let sub :=
                (folder ++ "/Styles/" ++ name style_dir ++ "/")%string in
              images <- write_files fs sub (glob fs style_dir "*.png") ;;
              metas <- (if include_metadata
                        then write_files fs sub (glob fs style_dir "*.json")
                        else Ok []) ;;
              Ok (images ++ metas)
            else Ok [])
         style_dirs
     else Ok []) ;;
  let summary :=
    if include_metadata
    then [zip_writestr (folder ++ "/character_summary.json")%string
            (CharacterSummaryJson char_info)]
    else [] in
  Ok (base ++ metadata ++ consistency ++ styles ++ summary).

(** The [with zipfile.ZipFile(...)] block of [create_batch_zip]. *)
Definition batch_zip_body (fs : node) (characters : list CharacterInfo)
  (include_metadata : bool) : result (list entry) :=
  per_character <-
    flat_mapM (batch_character_entries fs include_metadata) characters ;;
  let batch :=
    if include_metadata
    then [zip_writestr "batch_summary.json" (BatchSummaryJson characters);
          zip_writestr "README.txt" (BatchReadmeTxt characters)]
    else [] in
  Ok (per_character ++ batch).

Definition create_batch_zip (fs : node) (temp_zip_path : string)
  (characters : list CharacterInfo) (include_metadata : bool)
  : (bool * message * option string) * option (list entry) :=
  match characters with
  | [] => ((false, NoCharactersSelected, None), None)
  | _ :: _ =>
      match batch_zip_body fs characters include_metadata with
      | Ok entries =>
          ((true, BatchZipCreated (List.length characters),
            Some temp_zip_path),
           Some entries)
      | Raise e => ((false, ErrorCreatingBatchZip e, None), None)
      end
  end.

(** ** [get_estimated_zip_size] *)

Definition prec64 : Z := 53.
Definition emax64 : Z := 1024.

(** The literal [0.7]: the binary64 number nearest to seven tenths. *)
Definition float_0_7 : spec_float :=
  S754_finite false 6305039478318694 (-53).

(** Conversion of the [int] operand of [int * float]. *)
Definition float_of_int (n : Z) : result spec_float :=
  match binary_normalize prec64 emax64 n 0 false with
  | S754_infinity _ => Raise OverflowError
  | f => Ok f
  end.

(** [int(f)]: truncation towards zero. *)
Definition int_of_float (f : spec_float) : result Z :=
  match f with
  | S754_zero _ => Ok 0%Z
  | S754_finite s m e =>
      let magnitude :=
        match e with
        | Zneg k => (Zpos m / 2 ^ Zpos k)%Z
        | _ => (Zpos m * 2 ^ e)%Z
        end in
      Ok (if s then (- magnitude)%Z else magnitude)
  | S754_infinity _ => Raise OverflowError
  | S754_nan => Raise ValueError
  end.

(** [int(total_size * 0.7)] *)
Definition scale_by_0_7 (total_size : Z) : result Z :=
  x <- float_of_int total_size ;;
  int_of_float (SFmul prec64 emax64 x float_0_7).

(** The size string: the unit chosen by the thresholds, standing for
    [f"{estimate / unit:.1f} <unit>"], or the literal ["Unknown"]. *)
Inductive size_str :=
| GB (estimate : Z)
| MB (estimate : Z)
| KB (estimate : Z)
| Unknown.

Definition format_size (estimated_zip_size : Z) : size_str :=
  if (1024 * 1024 * 1024 <? estimated_zip_size)%Z then GB estimated_zip_size
  else if (1024 * 1024 <? estimated_zip_size)%Z then MB estimated_zip_size
  else KB estimated_zip_size.

(** [for f in files: total_size += f.stat().st_size] *)
Fixpoint add_sizes (fs : node) (files : list Path) (total_size : Z)
  : result Z :=
  match files with
  | [] => Ok total_size
  | f :: files' =>
      st <- stat fs f ;;
      add_sizes fs files' (total_size + Z.of_N (st_size st))%Z
  end.

(** The [if style_dir.is_dir(): for img_file in ...] loop over the style
    directories. *)
Fixpoint add_style_sizes (fs : node) (style_dirs : list Path) (total_size : Z)
  : result Z :=
  match style_dirs with
  | [] => Ok total_size
  | style_dir :: rest =>
      total_size' <- (if is_dir fs style_dir
                      then add_sizes fs (glob fs style_dir "*.png") total_size
                      else Ok total_size) ;;
      add_style_sizes fs rest total_size'
  end.

(** One iteration of the loop over [characters]. *)
Definition add_character_size (fs : node) (char : CharacterInfo)
  (total_size : Z) : result Z :=
  t1 <- match base_image_path char with
        | Some p =>
            if exists_ fs p
            then st <- stat fs p ;; Ok (total_size + Z.of_N (st_size st))%Z
            else Ok total_size
        | None => Ok total_size
        end ;;
  let consistency_path := path char // "ConsistencyTests" in
  t2 <- (if exists_ fs consistency_path
         then add_sizes fs (glob fs consistency_path "*.png") t1
         else Ok t1) ;;
  let styles_path := path char // "Styles" in
  if exists_ fs styles_path
  then style_dirs <- iterdir fs styles_path ;;
       add_style_sizes fs style_dirs t2
  else Ok t2.

Fixpoint add_character_sizes (fs : node) (characters : list CharacterInfo)
  (total_size : Z) : result Z :=
  match characters with
  | [] => Ok total_size
  | char :: rest =>
      t <- add_character_size fs char total_size ;;
      add_character_sizes fs rest t
  end.

Definition get_estimated_zip_size (fs : node) (characters : list CharacterInfo)
  : Z * size_str :=
  match (total_size <- add_character_sizes fs characters 0%Z ;;
         estimated_zip_size <- scale_by_0_7 total_size ;;
         Ok (estimated_zip_size, format_size estimated_zip_size)) with
  | Ok r => r
  | Raise _ => (0%Z, Unknown)
  end.

(** * Statements, specification-side definitions and fixtures *)

(** ** Strings, keys and patterns *)

(** The text has no wildcard in it. *)
Fixpoint star_free (lit : string) : bool :=
  match lit with
  | EmptyString => true
  | String c lit' => negb (Ascii.eqb c "*") && star_free lit'
  end.

(** ** Scanning a location *)

(** What the second pass contributes: its records, or nothing when it
    raises. *)
Definition legacy_or_nothing (fs : node) (location : Path) : list CharacterInfo :=
  match scan_non_standard fs location with
  | Ok l => l
  | Raise _ => []
  end.

(** ** Duplicate removal *)

(** [c] has the key of [r]. *)
Definition same_key (r : CharacterInfo) (c : CharacterInfo) : bool :=
  key_eqb (char_key c) (char_key r).

(** ** Sorting *)

(** [a] may come before [b] in a list that is newest first. *)
Definition newer_or_same (a b : CharacterInfo) : Prop :=
  (creation_date b <= creation_date a)%Z.

(** The records created at [t]. *)
Definition dated (t : Z) (c : CharacterInfo) : bool :=
  (creation_date c =? t)%Z.

(** ** The cache *)

(** The cached list, if any, is the outcome of a scan of some filesystem. *)
Definition cache_from_scan (self : CharacterManager) : Prop :=
  forall cached, _characters_cache self = Some cached ->
  exists fs0, cached = fresh_scan fs0 (scan_locations self).

(** ** Fixtures *)

(** The first instant of 2025 (UTC), when the files of the fixtures were
    last modified. *)
Definition new_year_2025 : Z := 1735689600 * 1000000.

(** A directory created at [ctime]. *)
Definition dir_stat (ctime : Z) : stat_result :=
  {| st_size := 4096; st_ctime := ctime; st_mtime := new_year_2025 |}.

(** A regular file of [size] bytes that is not a JSON document. *)
Definition png (size : N) : node :=
  File {| st_size := size; st_ctime := 0; st_mtime := new_year_2025 |} None.

(** A regular file holding the JSON document [doc]. *)
Definition json_file (doc : json) : node :=
  File {| st_size := 2; st_ctime := 0; st_mtime := new_year_2025 |}
       (Some doc).

(** Files last modified at the epoch, in 1970. *)
Definition old_png (size : N) : node :=
  File {| st_size := size; st_ctime := 0; st_mtime := 0 |} None.

Definition old_json_file (doc : json) : node :=
  File {| st_size := 2; st_ctime := 0; st_mtime := 0 |} (Some doc).

Definition demo_metadata : json :=
  JObject [("timestamp", JString "2025-01-01T00:00:00");
           ("prompt", JString "a knight");
           ("parameters", JObject []);
           ("success", JBool true)].

(** A studio with two standard characters, one legacy character and an
    empty directory. *)
Definition demo_tree : node :=
  Dir (dir_stat 0)
    [("studio", Dir (dir_stat 0)
       [("Session_1", Dir (dir_stat 0)
          [("Char_a", Dir (dir_stat 100)
             [("Base-Character.png", png 90000);
              ("base_character_metadata.json", json_file demo_metadata);
              ("ConsistencyTests", Dir (dir_stat 0)
                 [("Realistic_001.png", png 500);
                  ("Realistic_002.png", png 700)]);
              ("Styles", Dir (dir_stat 0)
                 [("ghibli", Dir (dir_stat 0)
                    [("ghibli_001.png", png 300)])])]);
           ("Char_b", Dir (dir_stat 300) [("Base-Image.png", png 4)]);
           ("Char_empty", Dir (dir_stat 400) [])]);
        ("legacy", Dir (dir_stat 0)
          [("bob", Dir (dir_stat 200) [("Base-Image.png", png 4)])])])].

Definition demo_char_a : CharacterInfo :=
  {| session_id := "Session_1"; character_id := "Char_a";
     path := ["studio"; "Session_1"; "Char_a"];
     creation_date := 100;
     base_image_path :=
       Some ["studio"; "Session_1"; "Char_a"; "Base-Character.png"];
     base_metadata := Some demo_metadata;
     realistic_count := 2; styled_counts := [("ghibli", 1)];
     total_images := 4;
     character_config := Some (JObject []); generation_time := None;
     prompt := Some (JString "a knight") |}.

Definition demo_char_b : CharacterInfo :=
  {| session_id := "Session_1"; character_id := "Char_b";
     path := ["studio"; "Session_1"; "Char_b"];
     creation_date := 300;
     base_image_path :=
       Some ["studio"; "Session_1"; "Char_b"; "Base-Image.png"];
     base_metadata := None;
     realistic_count := 0; styled_counts := [];
     total_images := 1;
     character_config := None; generation_time := None;
     prompt := None |}.

Definition demo_bob : CharacterInfo :=
  {| session_id := "legacy"; character_id := "bob";
     path := ["studio"; "legacy"; "bob"];
     creation_date := 200;
     base_image_path := Some ["studio"; "legacy"; "bob"; "Base-Image.png"];
     base_metadata := None;
     realistic_count := 0; styled_counts := [];
     total_images := 1;
     character_config := None; generation_time := None;
     prompt := None |}.

Definition demo_manager : CharacterManager := init ["studio"].

(** A second record with the key of [demo_bob], and one with its date. *)
Definition bob_again : CharacterInfo :=
  {| session_id := "legacy"; character_id := "bob";
     path := ["elsewhere"; "legacy"; "bob"];
     creation_date := 900;
     base_image_path := None; base_metadata := None;
     realistic_count := 3; styled_counts := [];
     total_images := 3;
     character_config := None; generation_time := None;
     prompt := None |}.

Definition bob_twin : CharacterInfo :=
  {| session_id := "legacy"; character_id := "twin";
     path := ["studio"; "legacy"; "twin"];
     creation_date := 200;
     base_image_path := None; base_metadata := None;
     realistic_count := 1; styled_counts := [];
     total_images := 1;
     character_config := None; generation_time := None;
     prompt := None |}.

(** ** Statements about a discovery result *)

(** At most one record per key, and the record kept is the first one found. *)
Definition first_seen_wins (found result : list CharacterInfo) : Prop :=
  NoDup (map char_key result) /\
  forall r, In r result <-> find (same_key r) found = Some r.

(** A key that a standard pass finds has exactly one record in the result,
    and that record was produced by a standard pass. *)
Definition standard_takes_priority (fs : node) (locations : list Path)
  (result : list CharacterInfo) : Prop :=
  forall location r,
    In location locations -> In r (scan_standard fs location) ->
    exists kept,
      In kept result /\ char_key kept = char_key r /\
      (forall other, In other result -> char_key other = char_key r ->
                     other = kept) /\
      exists source, In source locations /\ In kept (scan_standard fs source).

(** Newest first, and stable with respect to the order of discovery. *)
Definition newest_first_stable (discovered result : list CharacterInfo) : Prop :=
  StronglySorted newer_or_same result /\
  Permutation discovered result /\
  (forall d, filter (dated d) result = filter (dated d) discovered) /\
  (forall a b c,
     (creation_date c < creation_date b < creation_date a)%Z ->
     Permutation discovered [a; b; c] -> result = [a; b; c]).

(** ** The layout of an archive *)

(** The entry [zip_write] stores for a path that exists. *)
Definition stored (fs : node) (filename : Path) (arc : string) : entry :=
  {| arcname := if is_dir fs filename then (arc ++ "/")%string else arc;
     content := FromDisk filename |}.

Definition stored_files (fs : node) (folder : string) (files : list Path)
  : list entry :=
  map (fun f => stored fs f (folder ++ name f)%string) files.

(** The images of a folder, then its metadata files when they are wanted. *)
Definition folder_entries (fs : node) (folder : string) (dir : Path)
  (include_metadata : bool) : list entry :=
  stored_files fs folder (glob fs dir "*.png")
  ++ (if include_metadata
      then stored_files fs folder (glob fs dir "*.json")
      else []).

Definition base_entries (fs : node) (prefix : string) (c : CharacterInfo)
  : list entry :=
  match base_image_path c with
  | Some p =>
      if exists_ fs p then [stored fs p (prefix ++ name p)%string] else []
  | None => []
  end.

Definition metadata_entries (prefix : string) (c : CharacterInfo)
  (include_metadata : bool) : list entry :=
  match base_metadata c with
  | Some j =>
      if include_metadata && truthy j
      then [zip_writestr (prefix ++ "base_character_metadata.json")%string
              (BaseMetadataJson j)]
      else []
  | None => []
  end.

Definition consistency_entries (fs : node) (prefix : string)
  (c : CharacterInfo) (include_metadata : bool) : list entry :=
  if exists_ fs (path c // "ConsistencyTests")
  then folder_entries fs (prefix ++ "ConsistencyTests/")%string
         (path c // "ConsistencyTests") include_metadata
  else [].

Definition style_entries (fs : node) (prefix : string)
  (include_metadata : bool) (style_dirs : list Path) : list entry :=
  flat_map
    (fun style_dir =>
       if is_dir fs style_dir
       then folder_entries fs
              (prefix ++ "Styles/" ++ name style_dir ++ "/")%string
              style_dir include_metadata
       else [])
    style_dirs.

Definition summary_entries (prefix : string) (c : CharacterInfo)
  (include_metadata : bool) : list entry :=
  if include_metadata
  then [zip_writestr (prefix ++ "character_summary.json")%string
          (CharacterSummaryJson c)]
  else [].

Definition readme_entries (c : CharacterInfo) (include_metadata : bool)
  : list entry :=
  if include_metadata then [zip_writestr "README.txt" (ReadmeTxt c)] else [].

(** The listing of the [Styles] folder, a step of a build that can fail. *)
Definition style_listing (fs : node) (c : CharacterInfo) : result (list Path) :=
  if exists_ fs (path c // "Styles")
  then iterdir fs (path c // "Styles")
  else Ok [].

(** The per-character layout, under a name prefix. *)
Definition layout (fs : node) (prefix : string) (c : CharacterInfo)
  (include_metadata : bool) (style_dirs : list Path) : list entry :=
  base_entries fs prefix c
  ++ metadata_entries prefix c include_metadata
  ++ consistency_entries fs prefix c include_metadata
  ++ style_entries fs prefix include_metadata style_dirs
  ++ summary_entries prefix c include_metadata.

(** The check [zip_write] makes of a path before it stores it: the path is
    there, and its date is one the format can hold. *)
Definition datable (fs : node) (f : Path) : result unit :=
  st <- stat fs f ;; zip_date_time st.

(** The checks of a sequence of writes; the first one that fails ends the
    build. *)
Fixpoint all_datable (fs : node) (files : list Path) : result unit :=
  match files with
  | [] => Ok tt
  | f :: rest => u <- datable fs f ;; all_datable fs rest
  end.

(** The files on disk that a build takes for a record, in the order in
    which it takes them. *)
Definition base_files (fs : node) (c : CharacterInfo) : list Path :=
  match base_image_path c with
  | Some p => if exists_ fs p then [p] else []
  | None => []
  end.

Definition folder_files (fs : node) (dir : Path) (include_metadata : bool)
  : list Path :=
  glob fs dir "*.png"
  ++ (if include_metadata then glob fs dir "*.json" else []).

Definition consistency_files (fs : node) (c : CharacterInfo)
  (include_metadata : bool) : list Path :=
  if exists_ fs (path c // "ConsistencyTests")
  then folder_files fs (path c // "ConsistencyTests") include_metadata
  else [].

Definition style_files (fs : node) (include_metadata : bool)
  (style_dirs : list Path) : list Path :=
  flat_map
    (fun style_dir =>
       if is_dir fs style_dir
       then folder_files fs style_dir include_metadata
       else [])
    style_dirs.

(** The per-character part of a build: the steps that can fail, in the
    order in which the build makes them, and the layout it has written when
    none does. *)
Definition checked_layout (fs : node) (prefix : string) (c : CharacterInfo)
  (include_metadata : bool) : result (list entry) :=
  u <- all_datable fs (base_files fs c) ;;
  v <- all_datable fs (consistency_files fs c include_metadata) ;;
  style_dirs <- style_listing fs c ;;
  w <- all_datable fs (style_files fs include_metadata style_dirs) ;;
  Ok (layout fs prefix c include_metadata style_dirs).


(** ** More fixtures *)

(** A record whose directory is gone. *)
Definition ghost : CharacterInfo :=
  {| session_id := "Session_9"; character_id := "Char_gone";
     path := ["studio"; "Session_9"; "Char_gone"];
     creation_date := 50;
     base_image_path :=
       Some ["studio"; "Session_9"; "Char_gone"; "Base-Character.png"];
     base_metadata := Some demo_metadata;
     realistic_count := 2; styled_counts := [("ghibli", 1)];
     total_images := 4;
     character_config := Some (JObject []); generation_time := None;
     prompt := Some (JString "a knight") |}.

(** A character whose [Styles] entry is a regular file. *)
Definition broken_tree : node :=
  Dir (dir_stat 0)
    [("studio", Dir (dir_stat 0)
       [("Session_2", Dir (dir_stat 0)
          [("Char_x", Dir (dir_stat 10)
             [("Base-Character.png", png 1000);
              ("Styles", png 0)])])])].

Definition broken_char : CharacterInfo :=
  {| session_id := "Session_2"; character_id := "Char_x";
     path := ["studio"; "Session_2"; "Char_x"];
     creation_date := 10;
     base_image_path :=
       Some ["studio"; "Session_2"; "Char_x"; "Base-Character.png"];
     base_metadata := None;
     realistic_count := 0; styled_counts := [];
     total_images := 1;
     character_config := None; generation_time := None;
     prompt := None |}.




(** ** Archive completeness *)

(** The same character as [Char_a] of [demo_tree], but its metadata file
    holds the empty JSON object. *)
Definition bare_tree : node :=
  Dir (dir_stat 0)
    [("studio", Dir (dir_stat 0)
       [("Session_1", Dir (dir_stat 0)
          [("Char_a", Dir (dir_stat 100)
             [("Base-Character.png", png 90000);
              ("base_character_metadata.json", json_file (JObject []));
              ("ConsistencyTests", Dir (dir_stat 0)
                 [("Realistic_001.png", png 500);
                  ("Realistic_002.png", png 700)]);
              ("Styles", Dir (dir_stat 0)
                 [("ghibli", Dir (dir_stat 0)
                    [("ghibli_001.png", png 300)])])])])])].

Definition bare_char : CharacterInfo :=
  {| session_id := "Session_1"; character_id := "Char_a";
     path := ["studio"; "Session_1"; "Char_a"];
     creation_date := 100;
     base_image_path :=
       Some ["studio"; "Session_1"; "Char_a"; "Base-Character.png"];
     base_metadata := Some (JObject []);
     realistic_count := 2; styled_counts := [("ghibli", 1)];
     total_images := 4;
     character_config := None; generation_time := None;
     prompt := None |}.


(** ** What goes under ConsistencyTests/ *)

(** A character with a stray image next to its realistic variation. *)
Definition stray_tree : node :=
  Dir (dir_stat 0)
    [("studio", Dir (dir_stat 0)
       [("Session_3", Dir (dir_stat 0)
          [("Char_s", Dir (dir_stat 100)
             [("Base-Character.png", png 90000);
              ("ConsistencyTests", Dir (dir_stat 0)
                 [("Realistic_001.png", png 500);
                  ("pose.png", png 700);
                  ("notes.txt", png 10)])])])])].

Definition stray_char : CharacterInfo :=
  {| session_id := "Session_3"; character_id := "Char_s";
     path := ["studio"; "Session_3"; "Char_s"];
     creation_date := 100;
     base_image_path :=
       Some ["studio"; "Session_3"; "Char_s"; "Base-Character.png"];
     base_metadata := None;
     realistic_count := 1; styled_counts := [];
     total_images := 2;
     character_config := None; generation_time := None;
     prompt := None |}.

(** [arcname] lies under [ConsistencyTests/]. *)
Definition under_consistency (e : entry) : bool :=
  startswith (arcname e) "ConsistencyTests/".

(** The base image, if the record has one, bears a conventional name. *)
Definition conventional_base (c : CharacterInfo) : Prop :=
  forall b, base_image_path c = Some b -> In (name b) base_image_candidates.

(** ** Batch archives *)

(** The [Styles] entry of the record, if there is one, is a directory. *)
Definition styles_listable (fs : node) (c : CharacterInfo) : bool :=
  negb (exists_ fs (path c // "Styles")) || is_dir fs (path c // "Styles").

(** The style directories a build goes through. *)
Definition style_dirs_of (fs : node) (c : CharacterInfo) : list Path :=
  match style_listing fs c with
  | Ok style_dirs => style_dirs
  | Raise _ => []
  end.

(** A discovered character whose base image was last modified in 1970. *)
Definition antique_tree : node :=
  Dir (dir_stat 0)
    [("studio", Dir (dir_stat 0)
       [("Session_6", Dir (dir_stat 0)
          [("Char_o", Dir (dir_stat 100)
             [("Base-Character.png", old_png 1000)])])])].

Definition antique_char : CharacterInfo :=
  {| session_id := "Session_6"; character_id := "Char_o";
     path := ["studio"; "Session_6"; "Char_o"];
     creation_date := 100;
     base_image_path :=
       Some ["studio"; "Session_6"; "Char_o"; "Base-Character.png"];
     base_metadata := None;
     realistic_count := 0; styled_counts := [];
     total_images := 1;
     character_config := None; generation_time := None;
     prompt := None |}.

(** A character with a metadata file last modified in 1970 next to its
    realistic variation. *)
Definition dusty_tree : node :=
  Dir (dir_stat 0)
    [("studio", Dir (dir_stat 0)
       [("Session_7", Dir (dir_stat 0)
          [("Char_d", Dir (dir_stat 100)
             [("Base-Character.png", png 1000);
              ("ConsistencyTests", Dir (dir_stat 0)
                 [("Realistic_001.png", png 500);
                  ("Realistic_001_metadata.json",
                   old_json_file (JObject []))])])])])].

Definition dusty_char : CharacterInfo :=
  {| session_id := "Session_7"; character_id := "Char_d";
     path := ["studio"; "Session_7"; "Char_d"];
     creation_date := 100;
     base_image_path :=
       Some ["studio"; "Session_7"; "Char_d"; "Base-Character.png"];
     base_metadata := None;
     realistic_count := 1; styled_counts := [];
     total_images := 2;
     character_config := None; generation_time := None;
     prompt := None |}.

(** All the files on disk that the build of a record takes. *)
Definition archived_files (fs : node) (c : CharacterInfo)
  (include_metadata : bool) : list Path :=
  base_files fs c
  ++ consistency_files fs c include_metadata
  ++ style_files fs include_metadata (style_dirs_of fs c).






(** ** The size estimate *)

(** A character that is one base image of ninety bytes. *)
Definition ninety_tree : node :=
  Dir (dir_stat 0)
    [("studio", Dir (dir_stat 0)
       [("Session_4", Dir (dir_stat 0)
          [("Char_n", Dir (dir_stat 100)
             [("Base-Character.png", png 90)])])])].

Definition ninety_char : CharacterInfo :=
  {| session_id := "Session_4"; character_id := "Char_n";
     path := ["studio"; "Session_4"; "Char_n"];
     creation_date := 100;
     base_image_path :=
       Some ["studio"; "Session_4"; "Char_n"; "Base-Character.png"];
     base_metadata := None;
     realistic_count := 0; styled_counts := [];
     total_images := 1;
     character_config := None; generation_time := None;
     prompt := None |}.

(** The size on disk of a path. *)
Definition size_of (fs : node) (p : Path) : Z :=
  match stat fs p with
  | Ok st => Z.of_N (st_size st)
  | Raise _ => 0%Z
  end.

Definition sum_sizes (fs : node) (files : list Path) : Z :=
  fold_right (fun f total => (size_of fs f + total)%Z) 0%Z files.

(** The files the estimate counts for one record, in the words of the
    specification: the base image if it exists, every [.png] of the
    ConsistencyTests folder, every [.png] of each subdirectory of Styles. *)
Definition counted_files (fs : node) (c : CharacterInfo)
  (style_dirs : list Path) : list Path :=
  (match base_image_path c with
   | Some p => if exists_ fs p then [p] else []
   | None => []
   end)
  ++ glob fs (path c // "ConsistencyTests") "*.png"
  ++ flat_map (fun d => glob fs d "*.png") (filter (is_dir fs) style_dirs).

Fixpoint all_counted_files (fs : node) (characters : list CharacterInfo)
  : result (list Path) :=
  match characters with
  | [] => Ok []
  | c :: rest =>
      style_dirs <- style_listing fs c ;;
      files <- all_counted_files fs rest ;;
      Ok (counted_files fs c style_dirs ++ files)
  end.

(** ** The cache window *)

Definition seconds (n : Z) : Z := (n * 1000000)%Z.

(** The manager after a first scan of [demo_tree] at time zero. *)
Definition scanned_manager : CharacterManager :=
  snd (discover_characters demo_tree 0 true demo_manager).

(** A filesystem where the studio has been emptied. *)
Definition emptied_tree : node :=
  Dir (dir_stat 0) [("studio", Dir (dir_stat 0) [])].

(** * The rest of [character_manager.py] *)

(** ** [get_character_by_id] and [refresh_characters] *)

(** [char.session_id == session_id and char.character_id == character_id] *)
Definition has_ids (sid cid : string) (char : CharacterInfo) : bool :=
  (session_id char =? sid) && (character_id char =? cid).

Definition get_character_by_id (fs : node) (current_time : Z)
  (sid cid : string) (self : CharacterManager)
  : option CharacterInfo * CharacterManager :=
  let (characters, self') := discover_characters fs current_time false self in
  (find (has_ids sid cid) characters, self').

Definition refresh_characters (fs : node) (current_time : Z)
  (self : CharacterManager) : list CharacterInfo * CharacterManager :=
  discover_characters fs current_time true self.

(** ** [delete_character], with the filesystem *)

(** [shutil.rmtree(p)] on a directory: the entry is gone from its parent.
    The root itself is left alone. *)
Fixpoint remove_tree (fs : node) (p : Path) : node :=
  match p with
  | [] => fs
  | c :: p' =>
      match fs with
      | File _ _ => fs
      | Dir st listing =>
          match p' with
          | [] => Dir st (filter (fun e => negb (fst e =? c)) listing)
          | _ :: _ =>
              Dir st (map (fun e => if fst e =? c
                                    then (fst e, remove_tree (snd e) p')
                                    else e) listing)
          end
      end
  end.

(** [shutil.rmtree(p)]: raises on a path that is not a directory. *)
Definition rmtree (fs : node) (p : Path) : result node :=
  match resolve fs p with
  | Some (Dir _ _) => Ok (remove_tree fs p)
  | Some (File _ _) => Raise (NotADirectoryError p)
  | None => Raise (FileNotFoundError p)
  end.

Inductive delete_message :=
| CharacterDeleted (character_id : string)
| DirectoryNotFound (p : Path)
| ErrorDeleting (e : exn).

Module Full.

(** [delete_character] with all its effects: the returned pair, the
    filesystem afterwards and the manager afterwards.  [delete_character]
    above is its manager part. *)
Definition delete_character (fs : node) (char_info : CharacterInfo)
  (self : CharacterManager)
  : (bool * delete_message) * node * CharacterManager :=
  if exists_ fs (path char_info) then
    match rmtree fs (path char_info) with
    | Ok fs' =>
        ((true, CharacterDeleted (character_id char_info)), fs',
         {| scan_locations := scan_locations self;
            _characters_cache := None;
            _last_scan_time := _last_scan_time self |})
    | Raise e => ((false, ErrorDeleting e), fs, self)
    end
  else ((false, DirectoryNotFound (path char_info)), fs, self).

End Full.

(** ** [get_character_statistics] *)

(** The loop [style_breakdown[name] = style_breakdown.get(name, 0) + count]
    over the styles of one character. *)
Definition add_style_counts (breakdown : list (string * nat))
  (char : CharacterInfo) : list (string * nat) :=
  fold_left
    (fun acc kv =>
       dict_set acc (fst kv)
         (match dict_get acc (fst kv) with
          | Some n => n
          | None => 0
          end + snd kv))
    (styled_counts char) breakdown.

(** The same loop over all the characters. *)
Definition aggregate_styles (characters : list CharacterInfo)
  : list (string * nat) :=
  fold_left add_style_counts characters [].

(** [min(dates)] and [max(dates)] of a list that starts with [d]. *)
Definition min_date (d : Z) (dates : list Z) : Z := fold_left Z.min dates d.
Definition max_date (d : Z) (dates : list Z) : Z := fold_left Z.max dates d.

(** [sum(char.total_images for char in characters)] *)
Definition sum_total_images (characters : list CharacterInfo) : nat :=
  fold_right (fun char acc => total_images char + acc) 0 characters.

(** [len(set(char.session_id for char in characters))] *)
Definition count_sessions (characters : list CharacterInfo) : nat :=
  List.length (nodup string_dec (map session_id characters)).

(** The dictionary [get_character_statistics] returns.  The dates stand for
    their ISO texts; the average is kept as the pair (total images, number
    of characters) it is the quotient of, and is absent from the dictionary
    of an empty library. *)
Record statistics := {
  stat_total_characters : nat;
  stat_total_images : nat;
  stat_total_sessions : nat;
  stat_creation_date_range : option (Z * Z);
  stat_style_breakdown : list (string * nat);
  stat_average_images_per_character : option (nat * nat)
}.

Definition statistics_of (characters : list CharacterInfo) : statistics :=
  match characters with
  | [] =>
      {| stat_total_characters := 0; stat_total_images := 0;
         stat_total_sessions := 0; stat_creation_date_range := None;
         stat_style_breakdown := [];
         stat_average_images_per_character := None |}
  | first :: rest =>
      let dates := map creation_date rest in
      {| stat_total_characters := List.length characters;
         stat_total_images := sum_total_images characters;
         stat_total_sessions := count_sessions characters;
         stat_creation_date_range :=
           Some (min_date (creation_date first) dates,
                 max_date (creation_date first) dates);
         stat_style_breakdown := aggregate_styles characters;
         stat_average_images_per_character :=
           Some (sum_total_images characters, List.length characters) |}
  end.

Definition get_character_statistics (fs : node) (current_time : Z)
  (self : CharacterManager) : statistics * CharacterManager :=
  let (characters, self') := discover_characters fs current_time false self in
  (statistics_of characters, self').

(** ** [get_character_preview_images] *)

(** The order of [pathlib] paths: that of their components, each compared
    as a string. *)
Fixpoint path_leb (p q : Path) : bool :=
  match p, q with
  | [], _ => true
  | _ :: _, [] => false
  | a :: p', b :: q' =>
      match String.compare a b with
      | Lt => true
      | Eq => path_leb p' q'
      | Gt => false
      end
  end.

Fixpoint insert_path (p : Path) (l : list Path) : list Path :=
  match l with
  | [] => [p]
  | q :: l' => if path_leb p q then p :: l else q :: insert_path p l'
  end.

(** [sorted(paths)] *)
Definition sorted_paths (l : list Path) : list Path :=
  fold_right insert_path [] l.

(** [l[:n]] for an integer [n] of either sign. *)
Definition slice_to {A} (l : list A) (n : Z) : list A :=
  if (0 <=? n)%Z then firstn (Z.to_nat n) l
  else firstn (List.length l - Z.to_nat (- n)) l.

Inductive preview_label :=
| BaseCharacterLabel
| VariationLabel (i : nat)
| StyleLabel (style_name : string).

(** [enumerate(l, start)] *)
Fixpoint enumerate {A} (l : list A) (start : nat) : list (nat * A) :=
  match l with
  | [] => []
  | x :: l' => (start, x) :: enumerate l' (S start)
  end.

Definition get_character_preview_images (fs : node) (char_info : CharacterInfo)
  (max_previews : Z) : list (Path * preview_label) :=
  let base :=
    match base_image_path char_info with
    | Some p => if exists_ fs p then [(p, BaseCharacterLabel)] else []
    | None => []
    end in
  let consistency_path := path char_info // "ConsistencyTests" in
  let realistic :=
    if exists_ fs consistency_path
    then map (fun ip => (snd ip, VariationLabel (fst ip)))
             (enumerate
                (firstn 3 (sorted_paths
                             (glob fs consistency_path "Realistic_*.png")))
                1)
    else [] in
  let styles_path := path char_info // "Styles" in
  let styled :=
    if exists_ fs styles_path
    then flat_map
           (fun kv =>
              let style_dir := styles_path // fst kv in
              if exists_ fs style_dir
              then map (fun img => (img, StyleLabel (fst kv)))
                       (firstn 1 (sorted_paths (glob fs style_dir "*.png")))
              else [])
           (firstn 2 (styled_counts char_info))
    else [] in
  slice_to (base ++ realistic ++ styled) max_previews.

(** ** Statements about the place of a record *)

(** Where a record of a scan sits, and what its session is not. *)
Definition placed_under (fs : node) (location : Path) (r : CharacterInfo)
  : Prop :=
  path r = location // session_id r // character_id r /\
  is_dir fs (path r) = true /\
  is_dir fs (location // session_id r) = true /\
  startswith (session_id r) "." = false /\
  session_id r <> "__pycache__".

(** What there is to scan at a root: nothing when the root is missing, is
    a regular file, or is a directory with no subdirectory in it. *)
Definition no_session_directory (fs : node) (root : Path) : Prop :=
  forall st listing,
    resolve fs root = Some (Dir st listing) ->
    forall e, In e listing -> is_dir fs (root // fst e) = false.


(** ** Statements about style counts *)

(** [d.get(k, 0)] *)
Definition get_or_zero (d : list (string * nat)) (k : string) : nat :=
  match dict_get d k with
  | Some n => n
  | None => 0
  end.

(** What the items of a record's [styled_counts] contribute to style [s]:
    [styled_counts.get(s, 0)] for a dictionary, whose keys are distinct. *)
Definition style_count (s : string) (c : CharacterInfo) : nat :=
  fold_right (fun kv acc => if fst kv =? s then snd kv + acc else acc) 0
             (styled_counts c).

(** Sum of a number taken over the characters. *)
Definition sum_over (f : CharacterInfo -> nat) (characters : list CharacterInfo)
  : nat :=
  fold_right (fun c acc => f c + acc) 0 characters.

(** * The summaries of [zip_utils.py] *)

(** [x or {}] *)
Definition or_empty_object (x : option json) : json :=
  match x with
  | Some j => if truthy j then j else JObject []
  | None => JObject []
  end.

(** The dictionary of [_create_character_summary]; dates stand for their
    ISO texts and [export_date] is the clock at the time of the export. *)
Record character_summary := {
  summary_session_id : string;
  summary_character_id : string;
  summary_creation_date : Z;
  summary_prompt : option json;
  summary_base_image : nat;
  summary_realistic_variations : nat;
  summary_styled_images : list (string * nat);
  summary_total_images : nat;
  summary_character_config : json;
  summary_generation_metadata : json;
  summary_export_date : Z
}.

Definition _create_character_summary (fs : node) (now : Z)
  (char_info : CharacterInfo) : character_summary :=
  {| summary_session_id := session_id char_info;
     summary_character_id := character_id char_info;
     summary_creation_date := creation_date char_info;
     summary_prompt := prompt char_info;
     summary_base_image := if base_image_exists fs char_info then 1 else 0;
     summary_realistic_variations := realistic_count char_info;
     summary_styled_images := styled_counts char_info;
     summary_total_images := total_images char_info;
     summary_character_config := or_empty_object (character_config char_info);
     summary_generation_metadata := or_empty_object (base_metadata char_info);
     summary_export_date := now |}.

(** One element of the ["characters"] list of a batch summary. *)
Record batch_character := {
  listed_session_id : string;
  listed_character_id : string;
  listed_creation_date : Z;
  listed_image_count : nat;
  listed_prompt : option json
}.

(** The dictionary of [_create_batch_summary]. *)
Record batch_summary := {
  batch_total_characters : nat;
  batch_export_date : Z;
  batch_total_images : nat;
  batch_total_realistic_variations : nat;
  batch_style_breakdown : list (string * nat);
  batch_earliest : option Z;
  batch_latest : option Z;
  batch_characters : list batch_character
}.

Definition _create_batch_summary (now : Z) (characters : list CharacterInfo)
  : batch_summary :=
  let dates := map creation_date characters in
  {| batch_total_characters := List.length characters;
     batch_export_date := now;
     batch_total_images := sum_total_images characters;
     batch_total_realistic_variations :=
       fold_right (fun char acc => realistic_count char + acc) 0 characters;
     batch_style_breakdown := aggregate_styles characters;
     batch_earliest :=
       match dates with
       | [] => None
       | d :: rest => Some (min_date d rest)
       end;
     batch_latest :=
       match dates with
       | [] => None
       | d :: rest => Some (max_date d rest)
       end;
     batch_characters :=
       map (fun char =>
              {| listed_session_id := session_id char;
                 listed_character_id := character_id char;
                 listed_creation_date := creation_date char;
                 listed_image_count := total_images char;
                 listed_prompt := prompt char |})
           characters |}.

(** * Statements about archives *)



(** * Statements about what discovery finds *)

(** [root/s/c] is a character directory for one of the two passes: a
    [Char_] directory of a [Session_] directory, or a directory with a
    [Base-*.png] or [*metadata.json] file inside a session directory that
    is not a [Session_] one, not hidden and not [__pycache__]. *)
Definition character_directory (fs : node) (root : Path) (s c : string)
  : Prop :=
  is_dir fs (root // s) = true /\
  is_dir fs (root // s // c) = true /\
  ((startswith s "Session_" = true /\ startswith c "Char_" = true) \/
   (startswith s "Session_" = false /\ startswith s "." = false /\
    s <> "__pycache__" /\
    any_glob fs (root // s // c) "Base-*.png"
    || any_glob fs (root // s // c) "*metadata.json" = true)).

(** The directory [p] has an image that discovery counts: a base image
    under one of the two names, a [Realistic_*.png] in ConsistencyTests,
    or a [*.png] in a subdirectory of Styles. *)
Definition has_counted_image (fs : node) (p : Path) : Prop :=
  exists_ fs (p // "Base-Character.png") = true \/
  exists_ fs (p // "Base-Image.png") = true \/
  glob fs (p // "ConsistencyTests") "Realistic_*.png" <> [] \/
  exists style, is_dir fs (p // "Styles" // style) = true /\
                glob fs (p // "Styles" // style) "*.png" <> [].

(** * Properties *)

(** ** Strings, keys and patterns *)

Lemma key_eqb_eq (k1 k2 : string * string) : key_eqb k1 k2 = true <-> k1 = k2.
Proof.
  destruct k1 as [a b], k2 as [c d]; unfold key_eqb; simpl.
  rewrite andb_true_iff, !String.eqb_eq.
  split; [intros [-> ->]; reflexivity | intros [= -> ->]; auto].
Qed.

Lemma key_eqb_refl (k : string * string) : key_eqb k k = true.
Proof. apply key_eqb_eq; reflexivity. Qed.

Lemma key_eqb_sym (k1 k2 : string * string) : key_eqb k1 k2 = key_eqb k2 k1.
Proof.
  destruct (key_eqb k1 k2) eqn:E1, (key_eqb k2 k1) eqn:E2; auto.
  - apply key_eqb_eq in E1; subst. now rewrite key_eqb_refl in E2.
  - apply key_eqb_eq in E2; subst. now rewrite key_eqb_refl in E1.
Qed.

(** A pattern that is a single star matches every name. *)
Lemma fnmatch_star (s : string) : fnmatch "*" s = true.
Proof.
  simpl. induction s as [|c s IH]; [reflexivity|].
  simpl in *. exact IH.
Qed.

(** A literal followed by a star is a [startswith] test. *)
Lemma fnmatch_literal_star (lit s : string) :
  star_free lit = true ->
  fnmatch (lit ++ "*") s = startswith s lit.
Proof.
  unfold startswith. revert s.
  induction lit as [|c lit IH]; intros s Hlit.
  - rewrite fnmatch_star. destruct s; reflexivity.
  - simpl in Hlit. apply andb_true_iff in Hlit as [Hc Hlit].
    apply negb_true_iff in Hc.
    change (String c lit ++ "*")%string with (String c (lit ++ "*")).
    cbn [fnmatch]. rewrite Hc.
    destruct s as [|d s]; [reflexivity|].
    cbn [String.prefix].
    destruct (ascii_dec c d) as [->|Hne].
    + rewrite Ascii.eqb_refl. simpl. now apply IH.
    + apply Ascii.eqb_neq in Hne. now rewrite Hne.
Qed.

Lemma prefix_append (p s : string) : String.prefix p (p ++ s) = true.
Proof.
  induction p as [|c p IH]; simpl.
  - destruct s; reflexivity.
  - destruct (ascii_dec c c); [exact IH | congruence].
Qed.

(** ** Paths and the filesystem *)

Lemma name_join (p : Path) (c : string) : name (p // c) = c.
Proof. unfold name, join. apply last_last. Qed.

Lemma resolve_app (p q : Path) (fs : node) :
  resolve fs (p ++ q) =
  match resolve fs p with
  | Some n => resolve n q
  | None => None
  end.
Proof.
  revert fs. induction p as [|c p IH]; intros fs; simpl; [reflexivity|].
  destruct fs as [st doc | st listing]; [reflexivity|].
  destruct (child listing c); [apply IH | reflexivity].
Qed.

Lemma resolve_join (fs : node) (p : Path) (c : string) :
  resolve fs (p // c) =
  match resolve fs p with
  | Some (Dir _ listing) => child listing c
  | _ => None
  end.
Proof.
  unfold join. rewrite resolve_app.
  destruct (resolve fs p) as [[st doc | st listing]|]; simpl; auto.
  destruct (child listing c); reflexivity.
Qed.

Lemma child_listed (listing : list (string * node)) (e : string * node) :
  In e listing -> exists n, child listing (fst e) = Some n.
Proof.
  intros Hin. unfold child.
  destruct (find (fun e' => fst e' =? fst e) listing) as [x|] eqn:F.
  - now exists (snd x).
  - exfalso. apply (find_none _ _ F) in Hin.
    now rewrite String.eqb_refl in Hin.
Qed.

Lemma listed_exists (fs : node) (p : Path) st listing (e : string * node) :
  resolve fs p = Some (Dir st listing) ->
  In e listing ->
  exists_ fs (p // fst e) = true.
Proof.
  intros Hp Hin. unfold exists_. rewrite resolve_join, Hp.
  destruct (child_listed _ _ Hin) as [n ->]. reflexivity.
Qed.

Lemma glob_exists (fs : node) (p : Path) (pat : string) (f : Path) :
  In f (glob fs p pat) -> exists_ fs f = true.
Proof.
  unfold glob. destruct (resolve fs p) as [[?|st listing]|] eqn:Hp; try easy.
  intros Hin. apply in_map_iff in Hin as (e & <- & He).
  apply filter_In in He as [He _]. eapply listed_exists; eauto.
Qed.

Lemma glob_name (fs : node) (p : Path) (pat : string) (f : Path) :
  In f (glob fs p pat) -> fnmatch pat (name f) = true /\ exists c, f = p // c.
Proof.
  unfold glob. destruct (resolve fs p) as [[?|st listing]|] eqn:Hp; try easy.
  intros Hin. apply in_map_iff in Hin as (e & <- & He).
  apply filter_In in He as [_ He]. rewrite name_join. eauto.
Qed.

Lemma iterdir_exists (fs : node) (p : Path) (l : list Path) (f : Path) :
  iterdir fs p = Ok l -> In f l -> exists_ fs f = true.
Proof.
  unfold iterdir.
  destruct (resolve fs p) as [[?|st listing]|] eqn:Hp; try easy.
  intros [= <-] Hin. apply in_map_iff in Hin as (e & <- & He).
  eapply listed_exists; eauto.
Qed.

Lemma is_dir_exists (fs : node) (p : Path) :
  is_dir fs p = true -> exists_ fs p = true.
Proof.
  unfold is_dir, exists_. destruct (resolve fs p) as [[|]|]; easy.
Qed.

Lemma iterdir_ok (fs : node) (p : Path) :
  is_dir fs p = true -> exists l, iterdir fs p = Ok l.
Proof.
  unfold is_dir, iterdir. destruct (resolve fs p) as [[|]|]; try easy.
  eauto.
Qed.

(** ** The error monad *)

Lemma flat_mapM_in {A B} (f : A -> result (list B)) xs ys y :
  flat_mapM f xs = Ok ys -> In y ys ->
  exists x zs, In x xs /\ f x = Ok zs /\ In y zs.
Proof.
  revert ys. induction xs as [|x xs IH]; intros ys; simpl.
  - intros [= <-] [].
  - destruct (f x) as [zs|] eqn:Fx; simpl; [|discriminate].
    destruct (flat_mapM f xs) as [ws|] eqn:Fxs; simpl; [|discriminate].
    intros [= <-] Hin. apply in_app_or in Hin as [Hin|Hin].
    + exists x, zs. auto.
    + destruct (IH ws eq_refl Hin) as (x' & zs' & ? & ? & ?).
      exists x', zs'. auto.
Qed.

Lemma flat_mapM_total {A B} (f : A -> result (list B)) (g : A -> list B) xs :
  (forall x, In x xs -> f x = Ok (g x)) ->
  flat_mapM f xs = Ok (flat_map g xs).
Proof.
  induction xs as [|x xs IH]; intros H; simpl; [reflexivity|].
  rewrite (H x (or_introl eq_refl)). simpl.
  rewrite IH by (intros; apply H; now right). reflexivity.
Qed.

(** ** Analysis of one directory *)

(** What every record coming out of [_analyze_character_directory] has. *)
Lemma analyze_some (fs : node) (sid cid : string) (p : Path) (r : CharacterInfo) :
  _analyze_character_directory fs sid cid p = Some r ->
  session_id r = sid /\ character_id r = cid /\ path r = p /\
  total_images r =
    (if base_image_exists fs r then 1 else 0)
    + realistic_count r + sum_values (styled_counts r) /\
  total_images r <> 0.
Proof.
  unfold _analyze_character_directory, analyze_body.
  generalize (find (exists_ fs) (map (fun c => p // c) base_image_candidates)).
  intros b.
  destruct (stat fs p) as [st|]; simpl; [|discriminate].
  destruct (if exists_ fs _ then load_base_metadata fs _ else _)
    as [[metadata the_prompt] config].
  destruct (if exists_ fs (p // "Styles") then _ else _) as [styled|];
    simpl; [|discriminate].
  match goal with |- context [(0 <? ?t)%nat] => destruct (Nat.ltb_spec 0 t) end;
    [|discriminate].
  intros [= <-]. unfold base_image_exists. simpl.
  repeat split; auto; try lia.
  destruct b as [q|]; [destruct (exists_ fs q)|]; reflexivity.
Qed.

Lemma analyzed_in (fs : node) (sid cid : string) (p : Path) (r : CharacterInfo) :
  In r (analyzed fs sid cid p) ->
  _analyze_character_directory fs sid cid p = Some r.
Proof.
  unfold analyzed.
  destruct (_analyze_character_directory fs sid cid p); simpl; intuition congruence.
Qed.

(** ** Scanning a location *)

Lemma glob_not_dir (fs : node) (p : Path) (pat : string) :
  is_dir fs p = false -> glob fs p pat = [].
Proof.
  unfold is_dir, glob. destruct (resolve fs p) as [[|]|]; easy.
Qed.

Lemma scan_standard_not_dir (fs : node) (location : Path) :
  is_dir fs location = false -> scan_standard fs location = [].
Proof.
  intros H. unfold scan_standard. now rewrite glob_not_dir.
Qed.

Lemma flat_mapM_ok {A B} (f : A -> result (list B)) xs :
  (forall x, In x xs -> exists ys, f x = Ok ys) ->
  exists ys, flat_mapM f xs = Ok ys.
Proof.
  induction xs as [|x xs IH]; intros H; simpl; [eauto|].
  destruct (H x (or_introl eq_refl)) as [ys ->].
  destruct IH as [zs ->]; [intros; apply H; now right|].
  simpl. eauto.
Qed.

Lemma scan_candidate_session_ok (fs : node) (ps : Path) :
  exists ys, scan_candidate_session fs ps = Ok ys.
Proof.
  unfold scan_candidate_session.
  destruct (is_dir fs ps) eqn:D; simpl; eauto.
  destruct (startswith (name ps) "Session_"); eauto.
  destruct (startswith (name ps) "." || (name ps =? "__pycache__")); eauto.
  destruct (iterdir_ok fs ps D) as [l ->]. simpl. eauto.
Qed.

(** The standard pass comes first, whatever the second pass does. *)
Lemma scan_location_passes (fs : node) (location : Path) :
  _scan_location fs location =
  scan_standard fs location ++ legacy_or_nothing fs location.
Proof.
  unfold _scan_location, legacy_or_nothing.
  destruct (scan_non_standard fs location) as [l|e] eqn:E; simpl; auto.
  rewrite scan_standard_not_dir, app_nil_r; auto.
  unfold scan_non_standard in E.
  destruct (is_dir fs location) eqn:D; auto.
  destruct (iterdir_ok fs location D) as [l Hl]. rewrite Hl in E. simpl in E.
  destruct (flat_mapM_ok (scan_candidate_session fs) l) as [ys Hys];
    [intros; apply scan_candidate_session_ok | congruence].
Qed.

(** Records of the standard pass carry a [Session_] session id. *)
Lemma scan_standard_in (fs : node) (location : Path) (r : CharacterInfo) :
  In r (scan_standard fs location) ->
  startswith (session_id r) "Session_" = true /\
  exists p, _analyze_character_directory fs (session_id r) (character_id r) p
            = Some r.
Proof.
  unfold scan_standard. intros Hin.
  apply in_flat_map in Hin as (sp & Hsp & Hin).
  destruct (is_dir fs sp); [|easy].
  apply in_flat_map in Hin as (cp & Hcp & Hin).
  destruct (is_dir fs cp); [|easy].
  apply analyzed_in in Hin.
  destruct (analyze_some _ _ _ _ _ Hin) as (Hs & Hc & _).
  split.
  - rewrite Hs. apply glob_name in Hsp as [Hm _].
    now rewrite (fnmatch_literal_star "Session_") in Hm.
  - exists cp. now rewrite Hs, Hc.
Qed.

(** Records of the second pass never do. *)
Lemma legacy_in (fs : node) (location : Path) (r : CharacterInfo) :
  In r (legacy_or_nothing fs location) ->
  startswith (session_id r) "Session_" = false /\
  exists p, _analyze_character_directory fs (session_id r) (character_id r) p
            = Some r.
Proof.
  unfold legacy_or_nothing, scan_non_standard.
  destruct (iterdir fs location) as [sessions|]; simpl; [|easy].
  destruct (flat_mapM (scan_candidate_session fs) sessions) as [l|] eqn:E;
    [|easy].
  intros Hin.
  destruct (flat_mapM_in _ _ _ _ E Hin) as (ps & zs & _ & Hps & Hz).
  unfold scan_candidate_session in Hps.
  destruct (negb (is_dir fs ps)); [now inversion Hps; subst|].
  destruct (startswith (name ps) "Session_") eqn:S; [now inversion Hps; subst|].
  destruct (startswith (name ps) "." || (name ps =? "__pycache__"));
    [now inversion Hps; subst|].
  destruct (iterdir fs ps) as [cps|]; simpl in Hps; [|discriminate].
  inversion Hps; subst zs; clear Hps.
  apply in_flat_map in Hz as (cp & _ & Hz).
  destruct (negb (is_dir fs cp)); [easy|].
  destruct (any_glob fs cp "Base-*.png" || any_glob fs cp "*metadata.json");
    [|easy].
  apply analyzed_in in Hz.
  destruct (analyze_some _ _ _ _ _ Hz) as (Hs & Hc & _).
  split; [now rewrite Hs|]. exists cp. now rewrite Hs, Hc.
Qed.

Lemma scan_all_in (fs : node) (locations : list Path) (r : CharacterInfo) :
  In r (scan_all fs locations) ->
  exists p, _analyze_character_directory fs (session_id r) (character_id r) p
            = Some r.
Proof.
  unfold scan_all. intros Hin.
  apply in_flat_map in Hin as (loc & _ & Hin).
  destruct (exists_ fs loc); [|easy].
  rewrite scan_location_passes in Hin.
  apply in_app_or in Hin as [Hin|Hin].
  - now apply scan_standard_in in Hin.
  - now apply legacy_in in Hin.
Qed.

(** ** Duplicate removal *)

Lemma remove_duplicates_acc (l : list CharacterInfo) seen acc :
  remove_duplicates l seen acc = acc ++ remove_duplicates l seen [].
Proof.
  revert seen acc. induction l as [|c l IH]; intros seen acc; simpl.
  - now rewrite app_nil_r.
  - destruct (key_seen seen (char_key c)); [apply IH|].
    rewrite IH, (IH _ [c]), <- app_assoc. reflexivity.
Qed.

Lemma remove_duplicates_cons (c : CharacterInfo) l seen :
  remove_duplicates (c :: l) seen [] =
  if key_seen seen (char_key c)
  then remove_duplicates l seen []
  else c :: remove_duplicates l (char_key c :: seen) [].
Proof.
  simpl. destruct (key_seen seen (char_key c)); [reflexivity|].
  now rewrite remove_duplicates_acc.
Qed.

(** A record survives exactly when its key was not seen before and it is
    the first record of the list with that key. *)
Lemma remove_duplicates_in (l : list CharacterInfo) seen (r : CharacterInfo) :
  In r (remove_duplicates l seen []) <->
  key_seen seen (char_key r) = false /\ find (same_key r) l = Some r.
Proof.
  revert seen. induction l as [|c l IH]; intros seen.
  - simpl. split; [easy | intros [_ H]; discriminate].
  - rewrite remove_duplicates_cons. cbn [find]. unfold same_key at 1.
    destruct (key_seen seen (char_key c)) eqn:S.
    + rewrite IH. destruct (key_eqb (char_key c) (char_key r)) eqn:K; [|tauto].
      apply key_eqb_eq in K. rewrite <- K, S. split; intros [? ?]; discriminate.
    + cbn [In]. rewrite IH. cbn [key_seen existsb].
      destruct (key_eqb (char_key c) (char_key r)) eqn:K.
      * rewrite key_eqb_sym, K. cbn [orb].
        apply key_eqb_eq in K. rewrite <- K, S.
        split; [intros [->|[? _]]; [auto | discriminate]
               | intros [_ [= ->]]; auto].
      * rewrite key_eqb_sym, K. cbn [orb].
        split; [intros [->|?]; [|auto] | tauto].
        now rewrite key_eqb_refl in K.
Qed.

Lemma remove_duplicates_NoDup (l : list CharacterInfo) seen :
  NoDup (map char_key (remove_duplicates l seen [])).
Proof.
  revert seen. induction l as [|c l IH]; intros seen.
  - constructor.
  - rewrite remove_duplicates_cons.
    destruct (key_seen seen (char_key c)); [apply IH|].
    cbn [map]. constructor; [|apply IH].
    intros Hin. apply in_map_iff in Hin as (r & Hk & Hr).
    apply remove_duplicates_in in Hr as [Hs _].
    cbn [key_seen existsb] in Hs. rewrite Hk, key_eqb_refl in Hs. discriminate.
Qed.

(** A later record with a key already seen is dropped, not merged. *)
Example remove_duplicates_keeps_first :
  remove_duplicates [demo_char_a; demo_bob; bob_again; demo_char_b] [] []
  = [demo_char_a; demo_bob; demo_char_b].
Proof. reflexivity. Qed.

(** ** Sorting *)

Lemma insert_perm (c : CharacterInfo) l :
  Permutation (c :: l) (insert_newest_first c l).
Proof.
  induction l as [|d l IH]; simpl; [reflexivity|].
  destruct (creation_date c <? creation_date d)%Z; [|reflexivity].
  rewrite perm_swap. now constructor.
Qed.

Lemma sort_perm (l : list CharacterInfo) : Permutation l (sort_newest_first l).
Proof.
  induction l as [|c l IH]; simpl; [constructor|].
  rewrite <- insert_perm. now constructor.
Qed.

Lemma sort_in (l : list CharacterInfo) (r : CharacterInfo) :
  In r (sort_newest_first l) <-> In r l.
Proof.
  split; apply Permutation_in; [symmetry|]; apply sort_perm.
Qed.

Lemma insert_sorted (c : CharacterInfo) l :
  StronglySorted newer_or_same l ->
  StronglySorted newer_or_same (insert_newest_first c l).
Proof.
  induction 1 as [|d l Hl IH Hd]; simpl.
  - repeat constructor.
  - destruct (Z.ltb_spec (creation_date c) (creation_date d)).
    + constructor; [exact IH|].
      rewrite Forall_forall in *. intros x Hx.
      apply (Permutation_in _ (Permutation_sym (insert_perm c l))) in Hx.
      destruct Hx as [<-|Hx]; [unfold newer_or_same; lia | auto].
    + constructor; [now constructor|].
      constructor; [exact H|].
      rewrite Forall_forall in *. intros x Hx.
      specialize (Hd x Hx). unfold newer_or_same in *. lia.
Qed.

Lemma sort_sorted (l : list CharacterInfo) :
  StronglySorted newer_or_same (sort_newest_first l).
Proof.
  induction l as [|c l IH]; simpl; [constructor | now apply insert_sorted].
Qed.

Lemma insert_stable (t : Z) (c : CharacterInfo) l :
  filter (dated t) (insert_newest_first c l) = filter (dated t) (c :: l).
Proof.
  induction l as [|d l IH]; [reflexivity|].
  cbn [insert_newest_first].
  destruct (Z.ltb_spec (creation_date c) (creation_date d)); [|reflexivity].
  cbn [filter] in *. rewrite IH. unfold dated.
  destruct (Z.eqb_spec (creation_date c) t), (Z.eqb_spec (creation_date d) t);
    auto; lia.
Qed.

(** Records with the same date come out in the order they went in. *)
Lemma sort_stable (t : Z) (l : list CharacterInfo) :
  filter (dated t) (sort_newest_first l) = filter (dated t) l.
Proof.
  induction l as [|c l IH]; [reflexivity|].
  cbn [sort_newest_first fold_right]. rewrite insert_stable.
  cbn [filter]. fold (sort_newest_first l). now rewrite IH.
Qed.

(** Equal dates: [demo_bob] and [bob_twin] stay in their order of arrival. *)
Example sort_keeps_ties_in_order :
  sort_newest_first [demo_char_a; demo_bob; demo_char_b; bob_twin]
  = [demo_char_b; demo_bob; bob_twin; demo_char_a]
  /\ sort_newest_first [demo_char_a; bob_twin; demo_char_b; demo_bob]
  = [demo_char_b; bob_twin; demo_bob; demo_char_a].
Proof. split; reflexivity. Qed.

Lemma same_date_same_record (l : list CharacterInfo) (x y : CharacterInfo) :
  NoDup (map creation_date l) -> In x l -> In y l ->
  creation_date x = creation_date y -> x = y.
Proof.
  induction l as [|c l IH]; [easy|].
  cbn [map]. intros N Hx Hy E. apply NoDup_cons_iff in N as [Nc N].
  destruct Hx as [<-|Hx], Hy as [<-|Hy]; auto.
  - exfalso. apply Nc. rewrite E. now apply in_map.
  - exfalso. apply Nc. rewrite <- E. now apply in_map.
Qed.

(** With distinct dates there is one way to be sorted. *)
Lemma sorted_unique (l1 l2 : list CharacterInfo) :
  NoDup (map creation_date l1) ->
  StronglySorted newer_or_same l1 -> StronglySorted newer_or_same l2 ->
  Permutation l1 l2 -> l1 = l2.
Proof.
  revert l2. induction l1 as [|x l1 IH]; intros l2 N S1 S2 P.
  - now apply Permutation_nil in P.
  - destruct l2 as [|y l2]; [now apply Permutation_sym, Permutation_nil in P|].
    assert (x = y) as <-.
    { apply (same_date_same_record (x :: l1)); auto; [now left| |].
      - apply (Permutation_in _ (Permutation_sym P)). now left.
      - inversion S1 as [|? ? _ F1]; inversion S2 as [|? ? _ F2]; subst.
        rewrite Forall_forall in F1, F2.
        assert (Hy : In y (x :: l1))
          by (apply (Permutation_in _ (Permutation_sym P)); now left).
        assert (Hx : In x (y :: l2))
          by (apply (Permutation_in _ P); now left).
        destruct Hy as [->|Hy]; [reflexivity|].
        destruct Hx as [->|Hx]; [reflexivity|].
        specialize (F1 _ Hy). specialize (F2 _ Hx).
        unfold newer_or_same in *. lia. }
    f_equal. apply IH.
    + cbn [map] in N. now apply NoDup_cons_iff in N.
    + now inversion S1.
    + now inversion S2.
    + now apply Permutation_cons_inv in P.
Qed.

(** ** The cache *)

Lemma reachable_cache (self : CharacterManager) :
  reachable self -> cache_from_scan self.
Proof.
  induction 1 as [root | self fs t force _ IH | self fs c _ IH];
    unfold cache_from_scan.
  - discriminate.
  - unfold discover_characters.
    destruct (cache_hit self t force); simpl; [exact IH|].
    intros cached [= <-]. now exists fs.
  - unfold delete_character.
    destruct (exists_ fs (path c)); [|exact IH].
    destruct (is_dir fs (path c)); simpl; [discriminate | exact IH].
Qed.

(** Whatever [discover_characters] returns is the outcome of a scan: of the
    filesystem of this call when the cache is bypassed, of an earlier one
    otherwise. *)
Lemma discover_is_scan (self : CharacterManager) fs t force :
  reachable self ->
  exists fs0,
    fst (discover_characters fs t force self)
      = fresh_scan fs0 (scan_locations self) /\
    (cache_hit self t force = None -> fs0 = fs).
Proof.
  intros R. apply reachable_cache in R. unfold discover_characters.
  destruct (cache_hit self t force) as [cached|] eqn:H; simpl.
  - unfold cache_hit in H.
    destruct (_characters_cache self) as [c|] eqn:C; [|discriminate].
    destruct (_last_scan_time self); [|discriminate].
    destruct (_ && _); [|discriminate].
    injection H as <-. destruct (R c C) as [fs0 ->].
    exists fs0. split; [reflexivity | discriminate].
  - exists fs. auto.
Qed.

Lemma fresh_scan_in (fs : node) (locations : list Path) (r : CharacterInfo) :
  In r (fresh_scan fs locations) <->
  find (same_key r) (scan_all fs locations) = Some r.
Proof.
  unfold fresh_scan. rewrite sort_in, remove_duplicates_in. simpl. tauto.
Qed.

(** ** Discovery *)

Example discover_demo :
  fst (discover_characters demo_tree 0 false demo_manager)
  = [demo_char_b; demo_bob; demo_char_a].
Proof. reflexivity. Qed.

(** C1.  Every record that [discover_characters] returns has
    [total_images] equal to one for an existing base image, plus the
    realistic count, plus the sum of the styled counts, evaluated on the
    filesystem that was scanned (the current one unless the cache answered),
    and no record with zero images is returned. *)
Theorem discover_total_images (self : CharacterManager) (fs : node) (t : Z)
  (force : bool) (r : CharacterInfo) :
  reachable self ->
  In r (fst (discover_characters fs t force self)) ->
  exists scanned,
    (cache_hit self t force = None -> scanned = fs) /\
    total_images r =
      (if base_image_exists scanned r then 1 else 0)
      + realistic_count r + sum_values (styled_counts r) /\
    total_images r <> 0.
Proof.
  intros R Hin.
  destruct (discover_is_scan self fs t force R) as (scanned & E & Hfs).
  exists scanned. split; [exact Hfs|].
  rewrite E in Hin. apply fresh_scan_in in Hin. apply find_some in Hin as [Hin _].
  apply scan_all_in in Hin as [p Hp].
  now apply analyze_some in Hp.
Qed.

Lemma discover_total_images_witness :
  reachable demo_manager /\
  In demo_char_a (fst (discover_characters demo_tree 0 false demo_manager)) /\
  exists scanned,
    (cache_hit demo_manager 0 false = None -> scanned = demo_tree) /\
    total_images demo_char_a =
      (if base_image_exists scanned demo_char_a then 1 else 0)
      + realistic_count demo_char_a + sum_values (styled_counts demo_char_a) /\
    total_images demo_char_a <> 0.
Proof.
  assert (R : reachable demo_manager) by apply reach_init.
  assert (Hin : In demo_char_a
                  (fst (discover_characters demo_tree 0 false demo_manager)))
    by (vm_compute; auto).
  split; [exact R|]. split; [exact Hin|].
  exact (discover_total_images demo_manager demo_tree 0 false demo_char_a R Hin).
Defined.

Lemma find_ext {A} (f g : A -> bool) (l : list A) :
  (forall x, f x = g x) -> find f l = find g l.
Proof.
  intros H. induction l as [|x l IH]; simpl; [reflexivity|].
  now rewrite H, IH.
Qed.

Lemma find_is_some {A} (f : A -> bool) (l : list A) (x : A) :
  In x l -> f x = true -> exists y, find f l = Some y.
Proof.
  intros Hin Hf. destruct (find f l) as [y|] eqn:F; [eauto|].
  apply (find_none _ _ F) in Hin. congruence.
Qed.

Lemma scan_all_source (fs : node) (locations : list Path) (r : CharacterInfo) :
  In r (scan_all fs locations) ->
  exists location, In location locations /\
    (In r (scan_standard fs location) \/ In r (legacy_or_nothing fs location)).
Proof.
  unfold scan_all. intros Hin.
  apply in_flat_map in Hin as (loc & Hloc & Hin).
  destruct (exists_ fs loc); [|easy].
  rewrite scan_location_passes in Hin. apply in_app_or in Hin.
  exists loc. auto.
Qed.

Lemma scan_standard_found (fs : node) (locations : list Path) location r :
  In location locations -> In r (scan_standard fs location) ->
  In r (scan_all fs locations).
Proof.
  intros Hloc Hr. unfold scan_all. apply in_flat_map.
  exists location. split; [exact Hloc|].
  destruct (is_dir fs location) eqn:D.
  - rewrite (is_dir_exists _ _ D), scan_location_passes.
    apply in_or_app. now left.
  - now rewrite scan_standard_not_dir in Hr.
Qed.

Lemma fresh_scan_first_seen (fs : node) (locations : list Path) :
  first_seen_wins (scan_all fs locations) (fresh_scan fs locations).
Proof.
  split; [|intros r; apply fresh_scan_in].
  unfold fresh_scan.
  eapply Permutation_NoDup;
    [apply Permutation_map, sort_perm | apply remove_duplicates_NoDup].
Qed.

Lemma fresh_scan_standard_priority (fs : node) (locations : list Path) :
  standard_takes_priority fs locations (fresh_scan fs locations).
Proof.
  intros location r Hloc Hr.
  pose proof (scan_standard_found fs locations location r Hloc Hr) as Hfound.
  destruct (find_is_some (same_key r) _ r Hfound) as [kept Hk];
    [apply key_eqb_refl|].
  destruct (find_some _ _ Hk) as [Hkin Hkey].
  apply key_eqb_eq in Hkey.
  assert (Hsame : forall x, same_key kept x = same_key r x)
    by (intros x; unfold same_key; now rewrite Hkey).
  exists kept. repeat split.
  - apply fresh_scan_in. now rewrite (find_ext _ _ _ Hsame).
  - exact Hkey.
  - intros other Ho Hokey. apply fresh_scan_in in Ho.
    assert (Hsame' : forall x, same_key other x = same_key r x)
      by (intros x; unfold same_key; now rewrite Hokey).
    rewrite (find_ext _ _ _ Hsame') in Ho. congruence.
  - destruct (scan_all_source _ _ _ Hkin) as (source & Hs & [Hstd|Hleg]).
    + eauto.
    + exfalso. apply legacy_in in Hleg as [Hleg _].
      apply scan_standard_in in Hr as [Hr _].
      injection Hkey as Hsid _. congruence.
Qed.

(** C2.  The list returned by [discover_characters] has at most one record
    per (session_id, character_id); the record kept for a key is the first
    one the scan found; each location is scanned by the standard pass and
    then by the second pass; and a key found by a standard pass has exactly
    one record in the result, which comes from a standard pass. *)
Theorem discover_first_seen_wins (self : CharacterManager) (fs : node) (t : Z)
  (force : bool) :
  reachable self ->
  exists scanned,
    (cache_hit self t force = None -> scanned = fs) /\
    first_seen_wins (scan_all scanned (scan_locations self))
                    (fst (discover_characters fs t force self)) /\
    (forall location,
       _scan_location scanned location =
       scan_standard scanned location ++ legacy_or_nothing scanned location) /\
    standard_takes_priority scanned (scan_locations self)
                            (fst (discover_characters fs t force self)).
Proof.
  intros R.
  destruct (discover_is_scan self fs t force R) as (scanned & -> & Hfs).
  exists scanned. split; [exact Hfs|].
  split; [apply fresh_scan_first_seen|].
  split; [intros; apply scan_location_passes|].
  apply fresh_scan_standard_priority.
Qed.

Lemma discover_first_seen_wins_witness :
  reachable demo_manager /\
  exists scanned,
    (cache_hit demo_manager 0 false = None -> scanned = demo_tree) /\
    first_seen_wins (scan_all scanned (scan_locations demo_manager))
                    (fst (discover_characters demo_tree 0 false demo_manager)) /\
    (forall location,
       _scan_location scanned location =
       scan_standard scanned location ++ legacy_or_nothing scanned location) /\
    standard_takes_priority scanned (scan_locations demo_manager)
      (fst (discover_characters demo_tree 0 false demo_manager)).
Proof.
  assert (R : reachable demo_manager) by apply reach_init.
  split; [exact R|].
  exact (discover_first_seen_wins demo_manager demo_tree 0 false R).
Defined.

Lemma fresh_scan_newest_first (fs : node) (locations : list Path) :
  newest_first_stable (remove_duplicates (scan_all fs locations) [] [])
                      (fresh_scan fs locations).
Proof.
  unfold fresh_scan. set (discovered := remove_duplicates _ _ _).
  repeat split.
  - apply sort_sorted.
  - apply sort_perm.
  - intros d. apply sort_stable.
  - intros a b c Hd P. symmetry. apply sorted_unique.
    + cbn. repeat constructor; cbn; intuition lia.
    + repeat constructor; unfold newer_or_same; lia.
    + apply sort_sorted.
    + rewrite <- P. apply sort_perm.
Qed.

(** C8.  [discover_characters] returns the discovered records newest
    first: the result is sorted by creation date, descending; it is a
    rearrangement of the records discovered; records with equal dates keep
    their order of discovery; and three records with dates T1 > T2 > T3 come
    out as [T1, T2, T3]. *)
Theorem discover_newest_first (self : CharacterManager) (fs : node) (t : Z)
  (force : bool) :
  reachable self ->
  exists scanned,
    (cache_hit self t force = None -> scanned = fs) /\
    newest_first_stable
      (remove_duplicates (scan_all scanned (scan_locations self)) [] [])
      (fst (discover_characters fs t force self)).
Proof.
  intros R.
  destruct (discover_is_scan self fs t force R) as (scanned & -> & Hfs).
  exists scanned. split; [exact Hfs | apply fresh_scan_newest_first].
Qed.

Lemma discover_newest_first_witness :
  reachable demo_manager /\
  exists scanned,
    (cache_hit demo_manager 0 false = None -> scanned = demo_tree) /\
    newest_first_stable
      (remove_duplicates (scan_all scanned (scan_locations demo_manager)) [] [])
      (fst (discover_characters demo_tree 0 false demo_manager)).
Proof.
  assert (R : reachable demo_manager) by apply reach_init.
  split; [exact R|].
  exact (discover_newest_first demo_manager demo_tree 0 false R).
Defined.

(** ** The layout of an archive *)

Lemma append_assoc (a b c : string) :
  ((a ++ b) ++ c = a ++ b ++ c)%string.
Proof. induction a as [|x a IH]; simpl; [reflexivity | now rewrite IH]. Qed.

Lemma zip_write_stored (fs : node) (f : Path) (arc : string) :
  zip_write fs f arc = (u <- datable fs f ;; Ok (stored fs f arc)).
Proof.
  unfold zip_write, datable, stat, stored, is_dir.
  destruct (resolve fs f) as [[st doc|st listing]|]; cbn [bind];
    [destruct (zip_date_time st) as [[]|]; reflexivity ..| reflexivity].
Qed.

Lemma all_datable_app (fs : node) (a b : list Path) :
  all_datable fs (a ++ b) = (u <- all_datable fs a ;; all_datable fs b).
Proof.
  induction a as [|f a IH]; [reflexivity|]. cbn [app all_datable].
  destruct (datable fs f) as [[]|]; cbn [bind]; [exact IH | reflexivity].
Qed.

Lemma all_datable_ok (fs : node) (files : list Path) :
  all_datable fs files = Ok tt <->
  forall f, In f files -> datable fs f = Ok tt.
Proof.
  induction files as [|f files IH]; cbn [all_datable].
  - split; [intros _ f [] | reflexivity].
  - destruct (datable fs f) as [[]|e] eqn:D; cbn [bind].
    + rewrite IH. split.
      * intros H g [<-|Hg]; [exact D | now apply H].
      * intros H g Hg. apply H. now right.
    + split; [discriminate|]. intros H.
      specialize (H f (or_introl eq_refl)). congruence.
Qed.

Lemma all_datable_incl (fs : node) (a b : list Path) :
  incl a b -> all_datable fs b = Ok tt -> all_datable fs a = Ok tt.
Proof.
  intros I. rewrite !all_datable_ok. intros H f Hf. apply H, I, Hf.
Qed.

Lemma write_files_stored (fs : node) (folder : string) (files : list Path) :
  write_files fs folder files =
  (u <- all_datable fs files ;; Ok (stored_files fs folder files)).
Proof.
  unfold write_files, stored_files.
  induction files as [|f files IH]; [reflexivity|].
  cbn [flat_mapM all_datable map]. rewrite zip_write_stored, IH.
  destruct (datable fs f) as [[]|]; cbn [bind]; [|reflexivity].
  destruct (all_datable fs files) as [[]|]; reflexivity.
Qed.

Lemma write_folder (fs : node) (folder : string) (dir : Path) (inc : bool) :
  (images <- write_files fs folder (glob fs dir "*.png") ;;
   metas <- (if inc then write_files fs folder (glob fs dir "*.json")
             else Ok []) ;;
   Ok (images ++ metas))
  = (u <- all_datable fs (folder_files fs dir inc) ;;
     Ok (folder_entries fs folder dir inc)).
Proof.
  unfold folder_files, folder_entries.
  rewrite all_datable_app, write_files_stored.
  destruct (all_datable fs (glob fs dir "*.png")) as [[]|]; cbn [bind];
    [|reflexivity].
  destruct inc; [|reflexivity].
  rewrite write_files_stored.
  destruct (all_datable fs (glob fs dir "*.json")) as [[]|]; reflexivity.
Qed.

Lemma write_base (fs : node) (c : CharacterInfo) (prefix : string) :
  match base_image_path c with
  | Some p =>
      if exists_ fs p
      then e <- zip_write fs p (prefix ++ name p)%string ;; Ok [e]
      else Ok []
  | None => Ok []
  end = (u <- all_datable fs (base_files fs c) ;;
         Ok (base_entries fs prefix c)).
Proof.
  unfold base_files, base_entries.
  destruct (base_image_path c) as [p|]; [|reflexivity].
  destruct (exists_ fs p) eqn:E; [|reflexivity].
  rewrite zip_write_stored. cbn [all_datable].
  destruct (datable fs p) as [[]|]; reflexivity.
Qed.

Lemma write_styles (fs : node) (prefix : string) (inc : bool)
  (style_dirs : list Path) :
  flat_mapM
    (fun style_dir =>
       if is_dir fs style_dir then
         let folder := (prefix ++ "Styles/" ++ name style_dir ++ "/")%string in
         images <- write_files fs folder (glob fs style_dir "*.png") ;;
         metas <- (if inc
                   then write_files fs folder (glob fs style_dir "*.json")
                   else Ok []) ;;
         Ok (images ++ metas)
       else Ok [])
    style_dirs
  = (u <- all_datable fs (style_files fs inc style_dirs) ;;
     Ok (style_entries fs prefix inc style_dirs)).
Proof.
  unfold style_files, style_entries.
  induction style_dirs as [|d l IH]; [reflexivity|].
  cbn [flat_mapM flat_map]. rewrite IH, all_datable_app.
  destruct (is_dir fs d).
  - cbv zeta. rewrite write_folder.
    destruct (all_datable fs (folder_files fs d inc)) as [[]|]; cbn [bind];
      [|reflexivity].
    match goal with |- context [all_datable fs ?l] =>
      destruct (all_datable fs l) as [[]|]; reflexivity end.
  - cbn [bind all_datable app].
    match goal with |- context [all_datable fs ?l] =>
      destruct (all_datable fs l) as [[]|]; reflexivity end.
Qed.

(** [create_character_zip] writes the layout without a prefix, then the
    README. *)
Lemma character_zip_body_layout (fs : node) (c : CharacterInfo) (inc : bool) :
  character_zip_body fs c inc =
  (entries <- checked_layout fs "" c inc ;;
   Ok (entries ++ readme_entries c inc)).
Proof.
  unfold character_zip_body, checked_layout, style_listing, layout.
  replace (match base_image_path c with Some p => _ | None => Ok [] end)
    with (u <- all_datable fs (base_files fs c) ;;
          Ok (base_entries fs "" c))
    by (symmetry; apply (write_base fs c "")).
  destruct (all_datable fs (base_files fs c)) as [[]|]; cbn [bind];
    [|reflexivity].
  replace (if exists_ fs (path c // "ConsistencyTests") then _ else Ok [])
    with (v <- all_datable fs (consistency_files fs c inc) ;;
          Ok (consistency_entries fs "" c inc)).
  2:{ unfold consistency_files, consistency_entries.
      destruct (exists_ fs (path c // "ConsistencyTests")); [|reflexivity].
      symmetry. apply (write_folder fs "ConsistencyTests/"). }
  destruct (all_datable fs (consistency_files fs c inc)) as [[]|]; cbn [bind];
    [|reflexivity].
  destruct (exists_ fs (path c // "Styles")).
  - destruct (iterdir fs (path c // "Styles")) as [dirs|e]; [|reflexivity].
    cbn [bind].
    match goal with |- context [flat_mapM ?f dirs] =>
      replace (flat_mapM f dirs)
        with (w <- all_datable fs (style_files fs inc dirs) ;;
              Ok (style_entries fs "" inc dirs))
        by (symmetry; apply (write_styles fs "" inc dirs))
    end.
    destruct (all_datable fs (style_files fs inc dirs)) as [[]|]; cbn [bind];
      [|reflexivity].
    f_equal. unfold metadata_entries, summary_entries, readme_entries.
    rewrite <- !app_assoc. cbn [append]. destruct inc; reflexivity.
  - cbn [bind flat_mapM style_files flat_map all_datable]. f_equal.
    unfold metadata_entries, summary_entries, readme_entries.
    rewrite <- !app_assoc. cbn [append]. destruct inc; reflexivity.
Qed.


(** What a completed per-character part has gone through. *)
Lemma checked_layout_ok (fs : node) (prefix : string) (c : CharacterInfo)
  (inc : bool) (entries : list entry) :
  checked_layout fs prefix c inc = Ok entries ->
  exists style_dirs,
    style_listing fs c = Ok style_dirs /\
    entries = layout fs prefix c inc style_dirs /\
    all_datable fs (base_files fs c ++ consistency_files fs c inc
                    ++ style_files fs inc style_dirs) = Ok tt.
Proof.
  unfold checked_layout.
  destruct (all_datable fs (base_files fs c)) as [[]|] eqn:B; cbn [bind];
    [|discriminate].
  destruct (all_datable fs (consistency_files fs c inc)) as [[]|] eqn:C;
    cbn [bind]; [|discriminate].
  destruct (style_listing fs c) as [dirs|]; cbn [bind]; [|discriminate].
  destruct (all_datable fs (style_files fs inc dirs)) as [[]|] eqn:S;
    cbn [bind]; [|discriminate].
  intros [= <-]. exists dirs. split; [reflexivity|]. split; [reflexivity|].
  now rewrite !all_datable_app, B, C.
Qed.


(** ** Builds fail softly *)

Lemma create_character_zip_cases (fs : node) (tmp : string)
  (c : CharacterInfo) (inc : bool) :
  create_character_zip fs tmp c inc =
  match checked_layout fs "" c inc with
  | Ok entries =>
      ((true, ZipCreated (character_id c), Some tmp),
       Some (entries ++ readme_entries c inc))
  | Raise e => ((false, ErrorCreatingZip e, None), None)
  end.
Proof.
  unfold create_character_zip. rewrite character_zip_body_layout.
  destruct (checked_layout fs "" c inc); reflexivity.
Qed.

(** C7.  The batch build on an empty list fails with a message and no
    path, and each build ends in one of two ways: the block completes and
    the triple is (true, message, path), or the block raises and the triple
    is (false, error message, no path); nothing else reaches the caller. *)
Theorem builds_fail_softly (fs : node) (tmp : string) (inc : bool)
  (c : CharacterInfo) (cs : list CharacterInfo) :
  create_batch_zip fs tmp [] inc = ((false, NoCharactersSelected, None), None)
  /\ ((exists entries,
         character_zip_body fs c inc = Ok entries /\
         create_character_zip fs tmp c inc =
           ((true, ZipCreated (character_id c), Some tmp), Some entries))
      \/ (exists e,
            character_zip_body fs c inc = Raise e /\
            create_character_zip fs tmp c inc =
              ((false, ErrorCreatingZip e, None), None)))
  /\ ((exists entries,
         batch_zip_body fs (c :: cs) inc = Ok entries /\
         create_batch_zip fs tmp (c :: cs) inc =
           ((true, BatchZipCreated (S (List.length cs)), Some tmp),
            Some entries))
      \/ (exists e,
            batch_zip_body fs (c :: cs) inc = Raise e /\
            create_batch_zip fs tmp (c :: cs) inc =
              ((false, ErrorCreatingBatchZip e, None), None))).
Proof.
  split; [reflexivity|]. split.
  - unfold create_character_zip.
    destruct (character_zip_body fs c inc) as [entries|e]; eauto.
  - unfold create_batch_zip.
    destruct (batch_zip_body fs (c :: cs) inc) as [entries|e]; eauto.
Qed.

(** An internal error does happen: a [Styles] entry that is a regular file
    makes [iterdir] raise inside either build. *)
Example builds_on_broken_tree :
  create_character_zip broken_tree "/tmp/a.zip" broken_char true
    = ((false,
        ErrorCreatingZip
          (NotADirectoryError ["studio"; "Session_2"; "Char_x"; "Styles"]),
        None), None)
  /\ create_batch_zip broken_tree "/tmp/b.zip" [demo_bob; broken_char] true
    = ((false,
        ErrorCreatingBatchZip
          (NotADirectoryError ["studio"; "Session_2"; "Char_x"; "Styles"]),
        None), None).
Proof. split; reflexivity. Qed.

(** ** A build without files *)








Lemma style_listing_not_listable (fs : node) (c : CharacterInfo) :
  styles_listable fs c = false ->
  style_listing fs c = Raise (NotADirectoryError (path c // "Styles")).
Proof.
  unfold styles_listable, style_listing, exists_, is_dir, iterdir.
  destruct (resolve fs (path c // "Styles")) as [[|]|]; easy.
Qed.


(** A record none of whose files is on disk has nothing to be taken, and
    its build has nothing to fail on. *)
Lemma nothing_to_archive (fs : node) (c : CharacterInfo) (inc : bool) :
  base_image_exists fs c = false ->
  exists_ fs (path c // "ConsistencyTests") = false ->
  exists_ fs (path c // "Styles") = false ->
  styles_listable fs c = true /\ archived_files fs c inc = [].
Proof.
  intros Hb Hc Hs. unfold styles_listable, archived_files, style_dirs_of,
    style_listing, consistency_files, base_files.
  rewrite Hs, Hc. split; [reflexivity|].
  unfold base_image_exists in Hb.
  destruct (base_image_path c); [now rewrite Hb | reflexivity].
Qed.





(** The record of a directory that is gone: both hypotheses hold by
    themselves, and the archive is the generated documents, or empty. *)
Example build_of_a_ghost :
  create_character_zip demo_tree "/tmp/ghost.zip" ghost true =
    ((true, ZipCreated "Char_gone", Some "/tmp/ghost.zip"),
     Some (metadata_entries "" ghost true ++ summary_entries "" ghost true
           ++ readme_entries ghost true))
  /\ create_character_zip demo_tree "/tmp/ghost.zip" ghost false =
       ((true, ZipCreated "Char_gone", Some "/tmp/ghost.zip"), Some []).
Proof. split; reflexivity. Qed.

(** ** Archive completeness *)









(** ** What goes under ConsistencyTests/ *)

Lemma filter_all {A} (f : A -> bool) (l : list A) :
  (forall x, In x l -> f x = true) -> filter f l = l.
Proof.
  induction l as [|x l IH]; intros H; simpl; [reflexivity|].
  rewrite (H x (or_introl eq_refl)), IH; [reflexivity|].
  intros; apply H; now right.
Qed.

Lemma filter_none {A} (f : A -> bool) (l : list A) :
  (forall x, In x l -> f x = false) -> filter f l = [].
Proof.
  induction l as [|x l IH]; intros H; simpl; [reflexivity|].
  rewrite (H x (or_introl eq_refl)), IH; [reflexivity|].
  intros; apply H; now right.
Qed.

Lemma prefix_append_more (p a b : string) :
  String.prefix p ((p ++ a) ++ b) = true.
Proof. rewrite append_assoc. apply prefix_append. Qed.

Lemma folder_entries_in (fs : node) (folder : string) (dir : Path)
  (inc : bool) (e : entry) :
  In e (folder_entries fs folder dir inc) ->
  exists f, e = stored fs f (folder ++ name f)%string.
Proof.
  unfold folder_entries, stored_files. intros H.
  apply in_app_or in H as [H|H].
  - apply in_map_iff in H as (f & <- & _). eauto.
  - destruct inc; [|easy]. apply in_map_iff in H as (f & <- & _). eauto.
Qed.

Lemma stored_under_consistency (fs : node) (f : Path) :
  under_consistency (stored fs f ("ConsistencyTests/" ++ name f)) = true.
Proof.
  unfold under_consistency, startswith, stored. cbn [arcname].
  destruct (is_dir fs f); [apply prefix_append_more | apply prefix_append].
Qed.

Lemma consistency_entries_glob (fs : node) (c : CharacterInfo) (inc : bool) :
  consistency_entries fs "" c inc =
  folder_entries fs "ConsistencyTests/" (path c // "ConsistencyTests") inc.
Proof.
  unfold consistency_entries.
  destruct (exists_ fs (path c // "ConsistencyTests")) eqn:E; [reflexivity|].
  unfold folder_entries, glob, exists_ in *.
  destruct (resolve fs (path c // "ConsistencyTests")); [discriminate|].
  now destruct inc.
Qed.

(** The counterexample to C5 as stated: discovery counts one realistic
    variation, and the archive has two entries under [ConsistencyTests/],
    one of them for a file that is not a realistic variation. *)
Lemma consistency_folder_takes_stray_png :
  fresh_scan stray_tree [["studio"]] = [stray_char] /\
  realistic_count stray_char = 1 /\
  fnmatch "Realistic_*.png" "pose.png" = false /\
  exists entries,
    snd (create_character_zip stray_tree "/tmp/a.zip" stray_char false)
      = Some entries /\
    map arcname (filter under_consistency entries) =
      ["ConsistencyTests/Realistic_001.png"; "ConsistencyTests/pose.png"].
Proof.
  repeat (split; [reflexivity|]).
  eexists. split; reflexivity.
Qed.

(** C5, amended.  For a record with a conventionally named base image and
    either value of [include_metadata], the entries of a single-character
    archive under [ConsistencyTests/] are exactly the entries of the
    ConsistencyTests folder that match [*.png], whatever the rest of their
    name, followed when metadata is included by those that match
    [*.json]. *)
Theorem consistency_entries_are_the_png_files (fs : node) (tmp : string)
  (c : CharacterInfo) (inc : bool) (entries : list entry) :
  conventional_base c ->
  snd (create_character_zip fs tmp c inc) = Some entries ->
  filter under_consistency entries =
    stored_files fs "ConsistencyTests/"
      (glob fs (path c // "ConsistencyTests") "*.png")
    ++ (if inc
        then stored_files fs "ConsistencyTests/"
               (glob fs (path c // "ConsistencyTests") "*.json")
        else []).
Proof.
  intros Hconv. rewrite create_character_zip_cases.
  destruct (checked_layout fs "" c inc) as [l|e] eqn:E; [|discriminate].
  apply checked_layout_ok in E as (dirs & _ & -> & _).
  cbn [snd]. intros [= <-]. unfold layout.
  rewrite !filter_app, consistency_entries_glob.
  rewrite (filter_none _ (base_entries fs "" c)).
  2:{ unfold base_entries. intros x Hx.
      destruct (base_image_path c) as [b|] eqn:Hb; [|easy].
      destruct (exists_ fs b); [|easy]. destruct Hx as [<-|[]].
      unfold under_consistency, stored. cbn [arcname append].
      destruct (Hconv b Hb) as [<-|[<-|[]]];
        destruct (is_dir fs b); reflexivity. }
  rewrite (filter_none _ (metadata_entries "" c inc)).
  2:{ unfold metadata_entries. intros x Hx.
      destruct (base_metadata c) as [j|]; [|easy].
      destruct (inc && truthy j); [|easy]. now destruct Hx as [<-|[]]. }
  rewrite (filter_none _ (style_entries fs "" inc dirs)).
  2:{ unfold style_entries. intros x Hx.
      apply in_flat_map in Hx as (d & _ & Hx).
      destruct (is_dir fs d); [|easy].
      apply folder_entries_in in Hx as [f ->].
      unfold under_consistency, stored. cbn [arcname append].
      destruct (is_dir fs f); reflexivity. }
  rewrite (filter_none _ (summary_entries "" c inc)).
  2:{ unfold summary_entries. intros x Hx.
      destruct inc; [|easy]. now destruct Hx as [<-|[]]. }
  rewrite (filter_none _ (readme_entries c inc)).
  2:{ unfold readme_entries. intros x Hx.
      destruct inc; [|easy]. now destruct Hx as [<-|[]]. }
  cbn [app]. rewrite !app_nil_r.
  apply filter_all. intros x Hx.
  apply folder_entries_in in Hx as [f ->]. apply stored_under_consistency.
Qed.

(** Discovery only builds records with a conventional base image. *)
Lemma analyze_conventional_base (fs : node) (sid cid : string) (p : Path)
  (r : CharacterInfo) :
  _analyze_character_directory fs sid cid p = Some r -> conventional_base r.
Proof.
  unfold _analyze_character_directory, analyze_body.
  destruct (find (exists_ fs) (map (fun c => p // c) base_image_candidates))
    as [q|] eqn:F.
  - apply find_some in F as [F _]. apply in_map_iff in F as (n & <- & Hn).
    destruct (stat fs p) as [st|]; simpl; [|discriminate].
    destruct (if exists_ fs _ then load_base_metadata fs _ else _)
      as [[metadata the_prompt] config].
    destruct (if exists_ fs (p // "Styles") then _ else _) as [styled|];
      simpl; [|discriminate].
    match goal with |- context [(0 <? ?t)%nat] => destruct (0 <? t)%nat end;
      [|discriminate].
    intros [= <-] b. simpl. intros [= <-]. now rewrite name_join.
  - destruct (stat fs p) as [st|]; simpl; [|discriminate].
    destruct (if exists_ fs _ then load_base_metadata fs _ else _)
      as [[metadata the_prompt] config].
    destruct (if exists_ fs (p // "Styles") then _ else _) as [styled|];
      simpl; [|discriminate].
    match goal with |- context [(0 <? ?t)%nat] => destruct (0 <? t)%nat end;
      [|discriminate].
    intros [= <-] b. simpl. discriminate.
Qed.

Lemma stray_conventional_base : conventional_base stray_char.
Proof. intros b [= <-]. left. reflexivity. Defined.

Lemma consistency_entries_are_the_png_files_witness :
  conventional_base stray_char /\
  snd (create_character_zip stray_tree "/tmp/a.zip" stray_char true)
    = Some (layout stray_tree "" stray_char true []
            ++ readme_entries stray_char true) /\
  filter under_consistency
    (layout stray_tree "" stray_char true [] ++ readme_entries stray_char true)
  = stored_files stray_tree "ConsistencyTests/"
      (glob stray_tree (path stray_char // "ConsistencyTests") "*.png")
    ++ stored_files stray_tree "ConsistencyTests/"
         (glob stray_tree (path stray_char // "ConsistencyTests") "*.json").
Proof.
  split; [exact stray_conventional_base|]. split; [reflexivity|].
  exact (consistency_entries_are_the_png_files stray_tree "/tmp/a.zip"
           stray_char true _ stray_conventional_base eq_refl).
Defined.

(** ** Batch archives *)











(** ** The size estimate *)

Lemma sum_sizes_app (fs : node) (l1 l2 : list Path) :
  sum_sizes fs (l1 ++ l2) = (sum_sizes fs l1 + sum_sizes fs l2)%Z.
Proof.
  induction l1 as [|f l1 IH]; simpl; [reflexivity|].
  fold (sum_sizes fs (l1 ++ l2)) (sum_sizes fs l1). rewrite IH. lia.
Qed.

Lemma stat_exists (fs : node) (p : Path) :
  exists_ fs p = true -> exists st, stat fs p = Ok st.
Proof.
  unfold exists_, stat. destruct (resolve fs p) as [[|]|]; try easy; eauto.
Qed.

Lemma add_sizes_ok (fs : node) (files : list Path) (total : Z) :
  (forall f, In f files -> exists_ fs f = true) ->
  add_sizes fs files total = Ok (total + sum_sizes fs files)%Z.
Proof.
  revert total. induction files as [|f files IH]; intros total H; simpl.
  - f_equal. lia.
  - destruct (stat_exists fs f) as [st Hst]; [apply H; now left|].
    unfold size_of. rewrite Hst. simpl.
    rewrite IH by (intros; apply H; now right).
    f_equal. fold (sum_sizes fs files). lia.
Qed.

Lemma add_style_sizes_ok (fs : node) (style_dirs : list Path) (total : Z) :
  add_style_sizes fs style_dirs total =
  Ok (total
      + sum_sizes fs
          (flat_map (fun d => glob fs d "*.png")
                    (filter (is_dir fs) style_dirs)))%Z.
Proof.
  revert total. induction style_dirs as [|d l IH]; intros total; simpl.
  - f_equal. lia.
  - destruct (is_dir fs d).
    + rewrite add_sizes_ok by (intros f; apply glob_exists). simpl.
      rewrite IH. f_equal. cbn [flat_map]. rewrite sum_sizes_app. lia.
    + simpl. apply IH.
Qed.

Lemma add_character_size_ok (fs : node) (c : CharacterInfo) (total : Z) :
  add_character_size fs c total =
  (style_dirs <- style_listing fs c ;;
   Ok (total + sum_sizes fs (counted_files fs c style_dirs))%Z).
Proof.
  unfold add_character_size, style_listing, counted_files.
  set (base := match base_image_path c with
               | Some p => if exists_ fs p then [p] else []
               | None => []
               end).
  replace (match base_image_path c with Some p => _ | None => Ok total end)
    with (Ok (total + sum_sizes fs base)%Z).
  2:{ subst base. destruct (base_image_path c) as [p|]; simpl;
        [|f_equal; lia].
      destruct (exists_ fs p) eqn:E; simpl; [|f_equal; lia].
      destruct (stat_exists fs p E) as [st Hst]. unfold size_of.
      rewrite Hst. simpl. f_equal. lia. }
  cbn [bind].
  replace (if exists_ fs (path c // "ConsistencyTests") then _ else Ok _)
    with (Ok (total + sum_sizes fs base
              + sum_sizes fs (glob fs (path c // "ConsistencyTests") "*.png"))%Z).
  2:{ destruct (exists_ fs (path c // "ConsistencyTests")) eqn:E.
      - now rewrite add_sizes_ok by (intros f; apply glob_exists).
      - unfold glob, exists_ in *.
        destruct (resolve fs (path c // "ConsistencyTests")); [discriminate|].
        simpl. f_equal. lia. }
  cbn [bind].
  destruct (exists_ fs (path c // "Styles")).
  - destruct (iterdir fs (path c // "Styles")) as [dirs|e]; [|reflexivity].
    cbn [bind]. rewrite add_style_sizes_ok. f_equal.
    rewrite !sum_sizes_app. lia.
  - cbn [bind filter flat_map]. f_equal. rewrite !sum_sizes_app. simpl. lia.
Qed.

Lemma add_character_sizes_ok (fs : node) (characters : list CharacterInfo)
  (total : Z) :
  add_character_sizes fs characters total =
  (files <- all_counted_files fs characters ;;
   Ok (total + sum_sizes fs files)%Z).
Proof.
  revert total. induction characters as [|c rest IH]; intros total; simpl.
  - f_equal. lia.
  - rewrite add_character_size_ok.
    destruct (style_listing fs c) as [dirs|e]; [|reflexivity].
    cbn [bind]. rewrite IH.
    destruct (all_counted_files fs rest) as [files|e]; [|reflexivity].
    cbn [bind]. f_equal. rewrite sum_sizes_app. lia.
Qed.

Lemma all_counted_files_png (fs : node) (characters : list CharacterInfo)
  (files : list Path) :
  all_counted_files fs characters = Ok files ->
  Forall (fun f => fnmatch "*.png" (name f) = true \/
                   exists c, In c characters /\ base_image_path c = Some f)
         files.
Proof.
  revert files. induction characters as [|c rest IH]; intros files; simpl.
  - intros [= <-]. constructor.
  - destruct (style_listing fs c) as [dirs|]; [|discriminate].
    destruct (all_counted_files fs rest) as [more|]; [|discriminate].
    cbn [bind]. intros [= <-]. apply Forall_app. split.
    + unfold counted_files. rewrite !Forall_app. repeat split.
      * destruct (base_image_path c) as [p|] eqn:B; [|constructor].
        destruct (exists_ fs p); constructor; [|constructor].
        right. exists c. auto.
      * apply Forall_forall. intros f Hf. left. now apply glob_name in Hf.
      * apply Forall_forall. intros f Hf. left.
        apply in_flat_map in Hf as (d & _ & Hf). now apply glob_name in Hf.
    + eapply Forall_impl; [|apply (IH more eq_refl)].
      intros f [H|(c' & Hc' & H)]; [now left|].
      right. exists c'. split; [now right | exact H].
Qed.

Example scale_examples :
  scale_by_0_7 0 = Ok 0%Z /\ scale_by_0_7 10 = Ok 7%Z /\
  scale_by_0_7 90 = Ok 62%Z /\ scale_by_0_7 1000000 = Ok 700000%Z /\
  scale_by_0_7 (2 ^ 1024) = Raise OverflowError.
Proof. repeat split; vm_compute; reflexivity. Qed.

(** The counterexample to C9 as stated: for ninety bytes the estimate is
    62, and the integer floor of 0.7 times 90 is 63. *)
Lemma estimate_is_not_the_exact_floor :
  all_counted_files ninety_tree [ninety_char]
    = Ok [["studio"; "Session_4"; "Char_n"; "Base-Character.png"]] /\
  sum_sizes ninety_tree
    [["studio"; "Session_4"; "Char_n"; "Base-Character.png"]] = 90%Z /\
  get_estimated_zip_size ninety_tree [ninety_char] = (62%Z, KB 62) /\
  (7 * 90 / 10 = 63)%Z /\
  fst (get_estimated_zip_size ninety_tree [ninety_char]) <> (7 * 90 / 10)%Z.
Proof.
  repeat split; try (vm_compute; reflexivity).
  vm_compute. discriminate.
Qed.

(** C9, amended.  The estimator sums the sizes of each record's existing
    base image, of every [.png] entry of its ConsistencyTests folder and of
    every [.png] entry of each subdirectory of its Styles folder, and
    returns [int(total * 0.7)] as binary64 arithmetic computes it, with the
    size string for that number.  Apart from base images only names
    matching [*.png] are counted.  When listing a Styles folder raises (or
    the total does not fit a float) it returns (0, Unknown).  It takes no
    [include_metadata] argument and produces no archive. *)
Theorem estimated_size_counts_images (fs : node)
  (characters : list CharacterInfo) :
  match all_counted_files fs characters with
  | Ok files =>
      get_estimated_zip_size fs characters =
        match scale_by_0_7 (sum_sizes fs files) with
        | Ok estimate => (estimate, format_size estimate)
        | Raise _ => (0%Z, Unknown)
        end
      /\ Forall (fun f => fnmatch "*.png" (name f) = true \/
                          exists c, In c characters /\
                                    base_image_path c = Some f)
                files
  | Raise _ => get_estimated_zip_size fs characters = (0%Z, Unknown)
  end.
Proof.
  unfold get_estimated_zip_size. rewrite add_character_sizes_ok.
  destruct (all_counted_files fs characters) as [files|e] eqn:E;
    [|reflexivity].
  cbn [bind]. split; [|exact (all_counted_files_png fs _ _ E)].
  replace (0 + sum_sizes fs files)%Z with (sum_sizes fs files) by lia.
  destruct (scale_by_0_7 (sum_sizes fs files)); reflexivity.
Qed.

(** ** The cache window *)

(** Inside the window the cache answers, whatever the filesystem. *)
Lemma cache_answers_within_window (self : CharacterManager) (fs : node)
  (cached : list CharacterInfo) (last now : Z) :
  _characters_cache self = Some cached ->
  _last_scan_time self = Some last ->
  (last <= now < last + seconds 30)%Z ->
  discover_characters fs now false self = (cached, self).
Proof.
  intros Hc Hl Hw. unfold discover_characters, cache_hit.
  rewrite Hc, Hl. cbn [negb andb].
  unfold timedelta_seconds, seconds in *.
  assert (E : ((now - last) / 1000000 mod 86400 < 30)%Z).
  { assert (0 <= (now - last) / 1000000 < 30)%Z.
    { split; [apply Z.div_pos; lia | apply Z.div_lt_upper_bound; lia]. }
    rewrite Z.mod_small; lia. }
  apply Z.ltb_lt in E. now rewrite E.
Qed.

(** A forced refresh always scans. *)
Lemma force_refresh_scans (self : CharacterManager) (fs : node) (now : Z) :
  fst (discover_characters fs now true self)
    = fresh_scan fs (scan_locations self)
  /\ _last_scan_time (snd (discover_characters fs now true self)) = Some now.
Proof.
  unfold discover_characters, cache_hit.
  destruct (_characters_cache self), (_last_scan_time self); split; reflexivity.
Qed.

(** From thirty seconds up to one day after the last scan, a call scans. *)
Lemma cache_expires_within_a_day (self : CharacterManager) (fs : node)
  (last now : Z) (force : bool) :
  _last_scan_time self = Some last ->
  (last + seconds 30 <= now < last + seconds 86400)%Z ->
  fst (discover_characters fs now force self)
    = fresh_scan fs (scan_locations self).
Proof.
  intros Hl Hw. unfold discover_characters, cache_hit. rewrite Hl.
  destruct (_characters_cache self); [|reflexivity].
  unfold timedelta_seconds, seconds in *.
  assert (E : (30 <= (now - last) / 1000000 mod 86400)%Z).
  { assert (30 <= (now - last) / 1000000 < 86400)%Z.
    { split; [apply Z.div_le_lower_bound; lia
             | apply Z.div_lt_upper_bound; lia]. }
    rewrite Z.mod_small; lia. }
  apply Z.ltb_ge in E. rewrite E, andb_false_r. reflexivity.
Qed.

(** C3, the failing input.  One day and five seconds after the scan of
    [demo_tree], with the studio emptied in between, a call without
    [force_refresh] performs no scan: it returns the three cached records
    and leaves the manager as it was, though a scan would return nothing. *)
Theorem cache_outlives_the_window_after_a_day :
  reachable scanned_manager /\
  _last_scan_time scanned_manager = Some 0%Z /\
  (seconds 30 <= seconds 86405 - 0)%Z /\
  timedelta_seconds (seconds 86405 - 0) = 5%Z /\
  discover_characters emptied_tree (seconds 86405) false scanned_manager
    = ([demo_char_b; demo_bob; demo_char_a], scanned_manager) /\
  fresh_scan emptied_tree (scan_locations scanned_manager) = [].
Proof.
  split; [exact (reach_discover _ demo_tree 0%Z true (reach_init ["studio"]))|].
  repeat split; vm_compute; congruence.
Qed.

(** * More of the manager *)

(** ** Looking a character up *)

Lemma has_ids_key (sid cid : string) (c : CharacterInfo) :
  has_ids sid cid c = key_eqb (char_key c) (sid, cid).
Proof. reflexivity. Qed.

Lemma has_ids_true (sid cid : string) (c : CharacterInfo) :
  has_ids sid cid c = true <-> session_id c = sid /\ character_id c = cid.
Proof.
  unfold has_ids. now rewrite andb_true_iff, !String.eqb_eq.
Qed.

Lemma same_key_same_record (l : list CharacterInfo) (a b : CharacterInfo) :
  NoDup (map char_key l) -> In a l -> In b l ->
  char_key a = char_key b -> a = b.
Proof.
  induction l as [|c l IH]; [easy|].
  cbn [map]. intros N Ha Hb E. apply NoDup_cons_iff in N as [Nc N].
  destruct Ha as [<-|Ha], Hb as [<-|Hb]; auto.
  - exfalso. apply Nc. rewrite E. now apply in_map.
  - exfalso. apply Nc. rewrite <- E. now apply in_map.
Qed.

Lemma discover_keys_unique (self : CharacterManager) fs t force :
  reachable self ->
  NoDup (map char_key (fst (discover_characters fs t force self))).
Proof.
  intros R. destruct (discover_is_scan self fs t force R) as (fs0 & -> & _).
  apply fresh_scan_first_seen.
Qed.

(** X1.  [get_character_by_id] runs one discovery without forcing it and
    leaves the manager as that discovery leaves it.  It returns a record
    exactly when the discovered list has one with the two ids, and that
    record is then the only one with them; it returns nothing exactly when
    no discovered record has the two ids. *)
Theorem get_character_by_id_finds_the_record (self : CharacterManager)
  (fs : node) (t : Z) (sid cid : string) :
  reachable self ->
  snd (get_character_by_id fs t sid cid self)
    = snd (discover_characters fs t false self) /\
  match fst (get_character_by_id fs t sid cid self) with
  | Some c =>
      In c (fst (discover_characters fs t false self)) /\
      session_id c = sid /\ character_id c = cid /\
      forall c', In c' (fst (discover_characters fs t false self)) ->
                 session_id c' = sid -> character_id c' = cid -> c' = c
  | None =>
      forall c', In c' (fst (discover_characters fs t false self)) ->
                 ~ (session_id c' = sid /\ character_id c' = cid)
  end.
Proof.
  intros R. pose proof (discover_keys_unique self fs t false R) as N.
  unfold get_character_by_id.
  destruct (discover_characters fs t false self) as [l self'] eqn:D.
  cbn [fst snd] in *. split; [reflexivity|].
  destruct (find (has_ids sid cid) l) as [c|] eqn:F.
  - apply find_some in F as [Hin Hids]. apply has_ids_true in Hids as [Hs Hc].
    repeat split; auto. intros c' Hin' Hs' Hc'.
    apply (same_key_same_record l); auto. unfold char_key. congruence.
  - intros c' Hin' Hids. apply has_ids_true in Hids.
    apply (find_none _ _ F) in Hin'. congruence.
Qed.

Lemma get_character_by_id_finds_the_record_witness :
  reachable demo_manager /\
  fst (get_character_by_id demo_tree 0 "legacy" "bob" demo_manager)
    = Some demo_bob /\
  snd (get_character_by_id demo_tree 0 "legacy" "bob" demo_manager)
    = snd (discover_characters demo_tree 0 false demo_manager).
Proof.
  assert (R : reachable demo_manager) by apply reach_init.
  split; [exact R|]. split; [reflexivity|].
  exact (proj1 (get_character_by_id_finds_the_record demo_manager demo_tree 0
                  "legacy" "bob" R)).
Defined.

(** X2.  After [refresh_characters] at time [t], a lookup by the ids of any
    record of the refreshed list, made less than thirty seconds later,
    returns that very record and leaves the manager alone, whatever has
    happened to the filesystem in between. *)
Theorem lookup_after_refresh (self : CharacterManager) (fs fs' : node)
  (t t' : Z) (r : CharacterInfo) :
  In r (fst (refresh_characters fs t self)) ->
  (t <= t' < t + seconds 30)%Z ->
  get_character_by_id fs' t' (session_id r) (character_id r)
    (snd (refresh_characters fs t self))
  = (Some r, snd (refresh_characters fs t self)).
Proof.
  intros Hin Hw. unfold refresh_characters in *.
  destruct (force_refresh_scans self fs t) as [E Hl].
  rewrite E in Hin.
  assert (C : _characters_cache (snd (discover_characters fs t true self))
              = Some (fresh_scan fs (scan_locations self))).
  { unfold discover_characters, cache_hit.
    destruct (_characters_cache self), (_last_scan_time self); reflexivity. }
  unfold get_character_by_id.
  rewrite (cache_answers_within_window _ fs' _ t t' C Hl Hw).
  f_equal.
  destruct (find_is_some (has_ids (session_id r) (character_id r)) _ r Hin)
    as [c F]; [now apply has_ids_true|].
  rewrite F. f_equal.
  apply find_some in F as [Hc Hids]. apply has_ids_true in Hids as [Hs Hc'].
  apply (same_key_same_record (fresh_scan fs (scan_locations self))); auto.
  - apply fresh_scan_first_seen.
  - unfold char_key. congruence.
Qed.

Lemma lookup_after_refresh_witness :
  In demo_bob (fst (refresh_characters demo_tree 0 demo_manager)) /\
  (0 <= seconds 29 < 0 + seconds 30)%Z /\
  get_character_by_id emptied_tree (seconds 29) "legacy" "bob"
    (snd (refresh_characters demo_tree 0 demo_manager))
  = (Some demo_bob, snd (refresh_characters demo_tree 0 demo_manager)).
Proof.
  assert (Hin : In demo_bob (fst (refresh_characters demo_tree 0 demo_manager)))
    by (vm_compute; auto).
  assert (Hw : (0 <= seconds 29 < 0 + seconds 30)%Z) by (vm_compute; intuition congruence).
  split; [exact Hin|]. split; [exact Hw|].
  exact (lookup_after_refresh demo_manager demo_tree emptied_tree 0
           (seconds 29) demo_bob Hin Hw).
Defined.

(** ** Deleting a character *)

Lemma child_filter_out (listing : list (string * node)) (c : string) :
  child (filter (fun e => negb (fst e =? c)) listing) c = None.
Proof.
  unfold child.
  destruct (find _ (filter _ listing)) as [x|] eqn:F; [|reflexivity].
  apply find_some in F as [Hin Hx]. apply filter_In in Hin as [_ Hn].
  now rewrite Hx in Hn.
Qed.

Lemma child_map_at (listing : list (string * node)) (c : string)
  (f : node -> node) :
  child (map (fun e => if fst e =? c then (fst e, f (snd e)) else e) listing) c
  = option_map f (child listing c).
Proof.
  unfold child. induction listing as [|[k n] l IH]; [reflexivity|].
  cbn [map find fst snd].
  destruct (k =? c) eqn:K; cbn [fst]; rewrite K; [reflexivity | exact IH].
Qed.

Lemma remove_tree_deeper (st : stat_result) (listing : list (string * node))
  (c d : string) (p : Path) :
  remove_tree (Dir st listing) (c :: d :: p) =
  Dir st (map (fun e => if fst e =? c
                        then (fst e, remove_tree (snd e) (d :: p))
                        else e) listing).
Proof. reflexivity. Qed.

Lemma remove_tree_gone (p : Path) (fs : node) :
  p <> [] -> resolve (remove_tree fs p) p = None.
Proof.
  revert fs. induction p as [|c p IH]; intros fs Hp; [congruence|].
  destruct fs as [st doc | st listing]; [reflexivity|].
  destruct p as [|d p].
  - cbn [remove_tree resolve]. now rewrite child_filter_out.
  - rewrite remove_tree_deeper. cbn [resolve].
    rewrite (child_map_at listing c (fun n => remove_tree n (d :: p))).
    destruct (child listing c) as [n|]; [|reflexivity].
    cbn [option_map]. apply IH. discriminate.
Qed.

(** The two outcomes of the full [delete_character]. *)
Lemma full_delete_directory (fs : node) (c : CharacterInfo)
  (self : CharacterManager) :
  is_dir fs (path c) = true ->
  Full.delete_character fs c self =
    ((true, CharacterDeleted (character_id c)),
     remove_tree fs (path c),
     {| scan_locations := scan_locations self;
        _characters_cache := None;
        _last_scan_time := _last_scan_time self |}).
Proof.
  unfold Full.delete_character, rmtree, is_dir, exists_.
  destruct (resolve fs (path c)) as [[st doc|st listing]|];
    [discriminate | reflexivity | discriminate].
Qed.

Lemma full_delete_otherwise (fs : node) (c : CharacterInfo)
  (self : CharacterManager) :
  is_dir fs (path c) = false ->
  exists m, Full.delete_character fs c self = ((false, m), fs, self).
Proof.
  unfold Full.delete_character, rmtree, is_dir, exists_.
  destruct (resolve fs (path c)) as [[st doc|st listing]|];
    [eexists; reflexivity | discriminate | eexists; reflexivity].
Qed.

(** X3.  [delete_character] succeeds exactly when the record's path is a
    directory.  On success the directory is removed and the cache is
    emptied, the scan location and the last scan time staying as they
    were; otherwise (path missing, or not a directory so that [rmtree]
    raises) it returns failure and changes neither the filesystem nor the
    manager. *)
Theorem delete_character_effects (fs : node) (c : CharacterInfo)
  (self : CharacterManager) :
  if is_dir fs (path c)
  then Full.delete_character fs c self =
         ((true, CharacterDeleted (character_id c)),
          remove_tree fs (path c),
          {| scan_locations := scan_locations self;
             _characters_cache := None;
             _last_scan_time := _last_scan_time self |})
       /\ snd (delete_character fs c self)
          = snd (Full.delete_character fs c self)
       /\ (path c <> [] -> exists_ (remove_tree fs (path c)) (path c) = false)
  else fst (fst (fst (Full.delete_character fs c self))) = false
       /\ snd (fst (Full.delete_character fs c self)) = fs
       /\ snd (Full.delete_character fs c self) = self.
Proof.
  destruct (is_dir fs (path c)) eqn:D.
  - rewrite (full_delete_directory fs c self D). cbn [snd].
    split; [reflexivity|]. split.
    + unfold delete_character. now rewrite (is_dir_exists _ _ D), D.
    + intros Hp. unfold exists_. now rewrite (remove_tree_gone _ fs Hp).
  - destruct (full_delete_otherwise fs c self D) as (m & ->).
    repeat split.
Qed.

Lemma full_delete_reachable (fs : node) (c : CharacterInfo)
  (self : CharacterManager) :
  reachable self -> reachable (snd (Full.delete_character fs c self)).
Proof.
  intros R. destruct (is_dir fs (path c)) eqn:D.
  - rewrite (full_delete_directory fs c self D). cbn [snd].
    pose proof (reach_delete self fs c R) as R'.
    unfold delete_character in R'.
    now rewrite (is_dir_exists _ _ D), D in R'.
  - destruct (full_delete_otherwise fs c self D) as (m & ->). exact R.
Qed.

(** A record that a scan returns has a directory on the scanned tree. *)
Lemma analyze_path_exists (fs : node) (sid cid : string) (p : Path)
  (r : CharacterInfo) :
  _analyze_character_directory fs sid cid p = Some r ->
  exists_ fs (path r) = true.
Proof.
  intros H. destruct (analyze_some _ _ _ _ _ H) as (_ & _ & -> & _).
  revert H. unfold _analyze_character_directory, analyze_body, stat, exists_.
  destruct (resolve fs p) as [[|]|]; simpl; easy.
Qed.

Lemma fresh_scan_path_exists (fs : node) (locations : list Path)
  (r : CharacterInfo) :
  In r (fresh_scan fs locations) -> exists_ fs (path r) = true.
Proof.
  intros H. apply fresh_scan_in, find_some in H as [H _].
  apply scan_all_in in H as [p H]. eapply analyze_path_exists; eauto.
Qed.

(** X4.  After a successful [delete_character], the next
    [discover_characters], at any time and with or without
    [force_refresh], scans the filesystem the deletion left, and no record
    it returns sits in the deleted directory. *)
Theorem deleted_character_is_not_rediscovered (fs : node) (c : CharacterInfo)
  (self : CharacterManager) (t : Z) (force : bool) :
  is_dir fs (path c) = true ->
  path c <> [] ->
  let fs' := snd (fst (Full.delete_character fs c self)) in
  let self' := snd (Full.delete_character fs c self) in
  fst (fst (fst (Full.delete_character fs c self))) = true /\
  fst (discover_characters fs' t force self')
    = fresh_scan fs' (scan_locations self) /\
  forall r, In r (fst (discover_characters fs' t force self')) ->
            path r <> path c.
Proof.
  intros D Hp. rewrite (full_delete_directory fs c self D).
  assert (Hgone : path c <> [] ->
                  exists_ (remove_tree fs (path c)) (path c) = false)
    by (intros H; unfold exists_; now rewrite (remove_tree_gone _ fs H)).
  cbn [fst snd].
  split; [reflexivity|].
  assert (S : fst (discover_characters (remove_tree fs (path c)) t force
                     {| scan_locations := scan_locations self;
                        _characters_cache := None;
                        _last_scan_time := _last_scan_time self |})
              = fresh_scan (remove_tree fs (path c)) (scan_locations self))
    by reflexivity.
  split; [exact S|].
  rewrite S. intros r Hr Heq. apply fresh_scan_path_exists in Hr.
  rewrite Heq, (Hgone Hp) in Hr. discriminate.
Qed.

Lemma deleted_character_is_not_rediscovered_witness :
  is_dir demo_tree (path demo_bob) = true /\
  path demo_bob <> [] /\
  fst (fst (fst (Full.delete_character demo_tree demo_bob scanned_manager)))
    = true /\
  fst (discover_characters
         (snd (fst (Full.delete_character demo_tree demo_bob scanned_manager)))
         (seconds 1) false
         (snd (Full.delete_character demo_tree demo_bob scanned_manager)))
    = [demo_char_b; demo_char_a].
Proof.
  assert (D : is_dir demo_tree (path demo_bob) = true) by reflexivity.
  assert (Hp : path demo_bob <> []) by discriminate.
  split; [exact D|]. split; [exact Hp|].
  split;
    [exact (proj1 (deleted_character_is_not_rediscovered demo_tree demo_bob
                     scanned_manager (seconds 1) false D Hp))
    | reflexivity].
Defined.

(** ** Where discovered records come from *)

Lemma reachable_one_location (self : CharacterManager) :
  reachable self -> exists root, scan_locations self = [root].
Proof.
  induction 1 as [root | self fs t force _ IH | self fs c _ IH].
  - now exists root.
  - unfold discover_characters. destruct (cache_hit self t force); exact IH.
  - unfold delete_character.
    destruct (exists_ fs (path c)), (is_dir fs (path c)); exact IH.
Qed.

Lemma glob_child (fs : node) (p : Path) (pat : string) (f : Path) :
  In f (glob fs p pat) ->
  exists c, f = p // c /\ fnmatch pat c = true.
Proof.
  unfold glob. destruct (resolve fs p) as [[|st listing]|]; try easy.
  intros H. apply in_map_iff in H as (e & <- & He).
  apply filter_In in He as [_ He]. eauto.
Qed.

Lemma iterdir_child (fs : node) (p : Path) (l : list Path) (f : Path) :
  iterdir fs p = Ok l -> In f l -> exists c, f = p // c.
Proof.
  unfold iterdir. destruct (resolve fs p) as [[|st listing]|]; try easy.
  intros [= <-] H. apply in_map_iff in H as (e & <- & _). eauto.
Qed.

Lemma not_hidden_session (s : string) :
  startswith s "Session_" = true ->
  startswith s "." = false /\ s <> "__pycache__".
Proof.
  unfold startswith. destruct s as [|a s]; [discriminate|].
  cbn [String.prefix]. destruct (ascii_dec "S" a) as [<-|]; [|discriminate].
  intros _. split; [reflexivity | discriminate].
Qed.

Lemma scan_standard_placed (fs : node) (location : Path) (r : CharacterInfo) :
  In r (scan_standard fs location) -> placed_under fs location r.
Proof.
  unfold scan_standard. intros Hin.
  apply in_flat_map in Hin as (sp & Hsp & Hin).
  destruct (is_dir fs sp) eqn:Ds; [|easy].
  apply in_flat_map in Hin as (cp & Hcp & Hin).
  destruct (is_dir fs cp) eqn:Dc; [|easy].
  apply analyzed_in, analyze_some in Hin as (Hs & Hc & Hp & _).
  apply glob_child in Hsp as (s & -> & Hm).
  apply glob_child in Hcp as (c & -> & _).
  rewrite !name_join in *. unfold placed_under.
  rewrite Hs, Hc, Hp. repeat split; auto;
    apply not_hidden_session; now rewrite <- (fnmatch_literal_star "Session_").
Qed.

Lemma legacy_placed (fs : node) (location : Path) (r : CharacterInfo) :
  In r (legacy_or_nothing fs location) -> placed_under fs location r.
Proof.
  unfold legacy_or_nothing, scan_non_standard.
  destruct (iterdir fs location) as [sessions|] eqn:I; simpl; [|easy].
  destruct (flat_mapM (scan_candidate_session fs) sessions) as [l|] eqn:E;
    [|easy].
  intros Hin.
  destruct (flat_mapM_in _ _ _ _ E Hin) as (ps & zs & Hps' & Hps & Hz).
  unfold scan_candidate_session in Hps.
  destruct (is_dir fs ps) eqn:Ds; cbn [negb] in Hps;
    [|now inversion Hps; subst].
  destruct (startswith (name ps) "Session_"); [now inversion Hps; subst|].
  destruct (startswith (name ps) ".") eqn:Hdot;
    [now inversion Hps; subst|].
  destruct (name ps =? "__pycache__") eqn:Hpy; cbn [orb] in Hps;
    [now inversion Hps; subst|].
  destruct (iterdir fs ps) as [cps|] eqn:Ic; simpl in Hps; [|discriminate].
  inversion Hps; subst zs; clear Hps.
  apply in_flat_map in Hz as (cp & Hcp & Hz).
  destruct (is_dir fs cp) eqn:Dc; cbn [negb] in Hz; [|easy].
  destruct (any_glob fs cp "Base-*.png" || any_glob fs cp "*metadata.json");
    [|easy].
  apply analyzed_in, analyze_some in Hz as (Hs & Hc & Hp & _).
  destruct (iterdir_child _ _ _ _ I Hps') as (s & ->).
  destruct (iterdir_child _ _ _ _ Ic Hcp) as (c & ->).
  rewrite !name_join in *. unfold placed_under.
  rewrite Hs, Hc, Hp. repeat split; auto.
  now apply String.eqb_neq.
Qed.

Lemma fresh_scan_placed (fs : node) (locations : list Path)
  (r : CharacterInfo) :
  In r (fresh_scan fs locations) ->
  exists location, In location locations /\ placed_under fs location r.
Proof.
  intros H. apply fresh_scan_in, find_some in H as [H _].
  destruct (scan_all_source _ _ _ H) as (loc & Hloc & [Hs|Hl]).
  - exists loc. split; [exact Hloc | now apply scan_standard_placed].
  - exists loc. split; [exact Hloc | now apply legacy_placed].
Qed.

(** X5.  Every record [discover_characters] returns describes the
    directory root/session_id/character_id of the manager's single root:
    that directory and its session directory exist on the scanned
    filesystem, and the session is neither a hidden directory nor
    [__pycache__]. *)
Theorem discovered_records_sit_under_the_root (self : CharacterManager)
  (fs : node) (t : Z) (force : bool) (r : CharacterInfo) :
  reachable self ->
  In r (fst (discover_characters fs t force self)) ->
  exists scanned root,
    (cache_hit self t force = None -> scanned = fs) /\
    scan_locations self = [root] /\
    placed_under scanned root r.
Proof.
  intros R Hin.
  destruct (discover_is_scan self fs t force R) as (scanned & E & Hfs).
  destruct (reachable_one_location self R) as [root Hroot].
  rewrite E in Hin. apply fresh_scan_placed in Hin as (loc & Hloc & Hp).
  rewrite Hroot in Hloc. destruct Hloc as [<-|[]].
  exists scanned, root. auto.
Qed.

Lemma discovered_records_sit_under_the_root_witness :
  reachable demo_manager /\
  In demo_bob (fst (discover_characters demo_tree 0 false demo_manager)) /\
  exists scanned root,
    (cache_hit demo_manager 0 false = None -> scanned = demo_tree) /\
    scan_locations demo_manager = [root] /\
    placed_under scanned root demo_bob.
Proof.
  assert (R : reachable demo_manager) by apply reach_init.
  assert (Hin : In demo_bob
                  (fst (discover_characters demo_tree 0 false demo_manager)))
    by (vm_compute; auto).
  split; [exact R|]. split; [exact Hin|].
  exact (discovered_records_sit_under_the_root demo_manager demo_tree 0 false
           demo_bob R Hin).
Defined.

Lemma flat_mapM_nil {A B} (f : A -> result (list B)) (xs : list A) :
  (forall x, In x xs -> f x = Ok []) -> flat_mapM f xs = Ok [].
Proof.
  intros H. rewrite (flat_mapM_total f (fun _ => [])) by exact H.
  f_equal. clear H. induction xs as [|x xs IH]; [reflexivity | exact IH].
Qed.

Lemma flat_map_nil {A B} (f : A -> list B) (xs : list A) :
  (forall x, In x xs -> f x = []) -> flat_map f xs = [].
Proof.
  induction xs as [|x xs IH]; intros H; simpl; [reflexivity|].
  rewrite (H x (or_introl eq_refl)), IH; [reflexivity|].
  intros; apply H; now right.
Qed.

Lemma scan_location_nothing (fs : node) (root : Path) :
  no_session_directory fs root -> _scan_location fs root = [].
Proof.
  intros H. rewrite scan_location_passes.
  unfold scan_standard, legacy_or_nothing, scan_non_standard, glob, iterdir.
  destruct (resolve fs root) as [[st doc|st listing]|] eqn:E; try reflexivity.
  specialize (H st listing E).
  rewrite flat_map_nil.
  - cbn [bind app]. rewrite flat_mapM_nil; [reflexivity|].
    intros x Hx. apply in_map_iff in Hx as (e & <- & He).
    unfold scan_candidate_session. now rewrite (H e He).
  - intros x Hx. apply in_map_iff in Hx as (e & <- & He).
    apply filter_In in He as [He _]. now rewrite (H e He).
Qed.

(** X6.  A first discovery on a root that does not exist, that is a regular
    file, or that holds no subdirectory (an empty directory, say) returns
    the empty list, and caches it with the time of the call. *)
Theorem nothing_to_discover (fs : node) (root : Path) (t : Z) (force : bool) :
  no_session_directory fs root ->
  discover_characters fs t force (init root) =
    ([], {| scan_locations := [root];
            _characters_cache := Some [];
            _last_scan_time := Some t |}).
Proof.
  intros H.
  assert (S : fresh_scan fs [root] = []).
  { unfold fresh_scan, scan_all. cbn [flat_map].
    destruct (exists_ fs root); [|reflexivity].
    now rewrite scan_location_nothing. }
  unfold discover_characters, cache_hit, init.
  cbn [_characters_cache _last_scan_time scan_locations].
  now rewrite S.
Qed.

Lemma emptied_tree_has_no_session :
  no_session_directory emptied_tree ["studio"].
Proof. intros st listing [= <- <-] e []. Defined.

Lemma nothing_to_discover_witness :
  no_session_directory emptied_tree ["studio"] /\
  discover_characters emptied_tree 7 false (init ["studio"]) =
    ([], {| scan_locations := [["studio"]];
            _characters_cache := Some [];
            _last_scan_time := Some 7%Z |}).
Proof.
  split; [exact emptied_tree_has_no_session|].
  exact (nothing_to_discover emptied_tree ["studio"] 7 false
           emptied_tree_has_no_session).
Defined.

Example nothing_to_discover_cases :
  no_session_directory demo_tree ["nowhere"] /\
  no_session_directory demo_tree
    ["studio"; "Session_1"; "Char_b"; "Base-Image.png"] /\
  no_session_directory demo_tree ["studio"; "Session_1"; "Char_b"].
Proof.
  repeat split; intros st listing E; try discriminate.
  injection E as <- <-. intros e [<-|[]]. reflexivity.
Qed.

(** * Statistics and summaries *)

(** ** Dictionaries *)

Lemma dict_get_set {V} (d : list (string * V)) (k k' : string) (v : V) :
  dict_get (dict_set d k v) k' = if k =? k' then Some v else dict_get d k'.
Proof.
  unfold dict_get. induction d as [|[k0 v0] d IH]; cbn [dict_set find fst].
  - destruct (k =? k'); reflexivity.
  - destruct (String.eqb_spec k0 k) as [->|Hk]; cbn [find fst].
    + destruct (k =? k'); reflexivity.
    + destruct (String.eqb_spec k0 k') as [->|Hk'].
      * apply String.eqb_neq in Hk. rewrite String.eqb_sym in Hk.
        now rewrite Hk.
      * exact IH.
Qed.

Lemma dict_mem_set {V} (d : list (string * V)) (k k' : string) (v : V) :
  dict_mem (dict_set d k v) k' = (k =? k') || dict_mem d k'.
Proof.
  unfold dict_mem. induction d as [|[k0 v0] d IH]; cbn [dict_set existsb fst].
  - now rewrite orb_false_r.
  - destruct (String.eqb_spec k0 k) as [->|Hk]; cbn [existsb fst].
    + now destruct (k =? k').
    + rewrite IH. now destruct (k0 =? k'), (k =? k').
Qed.

Lemma sum_values_add (d : list (string * nat)) (k : string) (n : nat) :
  sum_values (dict_set d k (get_or_zero d k + n)) = sum_values d + n.
Proof.
  unfold get_or_zero, dict_get.
  induction d as [|[k0 v0] d IH]; cbn [dict_set find fst]; [cbn; lia|].
  destruct (String.eqb_spec k0 k) as [->|Hk]; cbn [sum_values fold_right snd].
  - fold (sum_values d). cbn [option_map snd]. lia.
  - fold (sum_values d) (sum_values (dict_set d k
      (match option_map snd (find (fun kv => fst kv =? k) d) with
       | Some m => m | None => 0 end + n))).
    rewrite IH. lia.
Qed.

Lemma get_or_zero_add (d : list (string * nat)) (k s : string) (n : nat) :
  get_or_zero (dict_set d k (get_or_zero d k + n)) s =
  get_or_zero d s + (if k =? s then n else 0).
Proof.
  unfold get_or_zero at 1. rewrite dict_get_set.
  destruct (String.eqb_spec k s) as [->|]; [reflexivity|].
  unfold get_or_zero. lia.
Qed.

(** ** The style breakdown *)

Lemma add_style_counts_fold (items : list (string * nat))
  (acc : list (string * nat)) (s : string) :
  let acc' :=
    fold_left
      (fun a kv => dict_set a (fst kv)
                     (match dict_get a (fst kv) with
                      | Some n => n | None => 0 end + snd kv))
      items acc in
  get_or_zero acc' s =
    get_or_zero acc s
    + fold_right (fun kv t => if fst kv =? s then snd kv + t else t) 0 items
  /\ sum_values acc' = sum_values acc + sum_values items
  /\ dict_mem acc' s = dict_mem acc s || dict_mem items s.
Proof.
  cbv zeta. revert acc. induction items as [|[k n] items IH]; intros acc.
  - repeat split; cbn; unfold sum_values; try lia.
    now rewrite orb_false_r.
  - cbn [fold_left fst snd].
    destruct (IH (dict_set acc k
                    (match dict_get acc k with Some m => m | None => 0 end + n)))
      as (G & S & M).
    rewrite G, S, M. clear G S M IH.
    fold (get_or_zero acc k). rewrite get_or_zero_add, sum_values_add.
    rewrite dict_mem_set.
    cbn [fold_right sum_values dict_mem existsb fst snd].
    fold (sum_values items).
    repeat split.
    + destruct (k =? s); lia.
    + lia.
    + fold (dict_mem items s). now destruct (k =? s), (dict_mem acc s).
Qed.

Lemma sum_over_cons (f : CharacterInfo -> nat) (c : CharacterInfo)
  (l : list CharacterInfo) :
  sum_over f (c :: l) = f c + sum_over f l.
Proof. reflexivity. Qed.

Lemma aggregate_styles_fold (characters : list CharacterInfo)
  (acc : list (string * nat)) (s : string) :
  get_or_zero (fold_left add_style_counts characters acc) s =
    get_or_zero acc s + sum_over (style_count s) characters
  /\ sum_values (fold_left add_style_counts characters acc) =
       sum_values acc
       + sum_over (fun c => sum_values (styled_counts c)) characters
  /\ dict_mem (fold_left add_style_counts characters acc) s =
       dict_mem acc s
       || existsb (fun c => dict_mem (styled_counts c) s) characters.
Proof.
  revert acc. induction characters as [|c l IH]; intros acc.
  - repeat split; cbn; unfold sum_values; try lia.
    now rewrite orb_false_r.
  - cbn [fold_left]. destruct (IH (add_style_counts acc c)) as (G & S & M).
    rewrite G, S, M. clear G S M IH.
    destruct (add_style_counts_fold (styled_counts c) acc s) as (G & S & M).
    unfold add_style_counts. rewrite G, S, M.
    rewrite !sum_over_cons. cbn [existsb]. unfold style_count at 2.
    repeat split; try lia.
    now destruct (dict_mem acc s), (dict_mem (styled_counts c) s).
Qed.

(** X7.  The style breakdown that [get_character_statistics] and
    [_create_batch_summary] accumulate gives each style the sum of the
    counts the characters have for it; it lists a style exactly when some
    character has it; and its values add up to the number of styled images
    of all the characters. *)
Theorem style_breakdown_adds_up (characters : list CharacterInfo)
  (s : string) :
  get_or_zero (aggregate_styles characters) s
    = sum_over (style_count s) characters /\
  dict_mem (aggregate_styles characters) s
    = existsb (fun c => dict_mem (styled_counts c) s) characters /\
  sum_values (aggregate_styles characters)
    = sum_over (fun c => sum_values (styled_counts c)) characters /\
  stat_style_breakdown (statistics_of characters)
    = aggregate_styles characters /\
  (forall now, batch_style_breakdown (_create_batch_summary now characters)
               = aggregate_styles characters).
Proof.
  destruct (aggregate_styles_fold characters [] s) as (G & S & M).
  unfold aggregate_styles. rewrite G, S, M.
  repeat split. destruct characters; reflexivity.
Qed.

(** For a dictionary, whose keys are distinct, [style_count] is [get]. *)
Lemma style_count_get (s : string) (c : CharacterInfo) :
  NoDup (map fst (styled_counts c)) ->
  style_count s c = get_or_zero (styled_counts c) s.
Proof.
  unfold style_count, get_or_zero, dict_get.
  induction (styled_counts c) as [|[k n] d IH]; [reflexivity|].
  cbn [map fst]. intros N. apply NoDup_cons_iff in N as [Nk N].
  cbn [fold_right find fst snd].
  destruct (String.eqb_spec k s) as [->|Hk]; [|now apply IH].
  cbn [option_map snd].
  assert (Z0 : fold_right
                (fun kv acc => if fst kv =? s then snd kv + acc else acc) 0 d
              = 0).
  { clear IH N. induction d as [|[k' n'] d IH]; [reflexivity|].
    cbn [fold_right fst snd]. cbn [map fst] in Nk.
    destruct (String.eqb_spec k' s) as [->|_].
    - exfalso. apply Nk. now left.
    - apply IH. intros H. apply Nk. now right. }
  rewrite Z0. lia.
Qed.

(** ** Totals *)

Lemma fresh_scan_record (fs : node) (locations : list Path)
  (r : CharacterInfo) :
  In r (fresh_scan fs locations) ->
  total_images r =
    (if base_image_exists fs r then 1 else 0)
    + realistic_count r + sum_values (styled_counts r) /\
  total_images r <> 0.
Proof.
  intros H. apply fresh_scan_in, find_some in H as [H _].
  apply scan_all_in in H as [p H]. now apply analyze_some in H.
Qed.

Lemma sum_total_images_at_least (l : list CharacterInfo) :
  (forall r, In r l -> total_images r <> 0) ->
  List.length l <= sum_total_images l.
Proof.
  induction l as [|c l IH]; intros H; [reflexivity|].
  cbn [List.length sum_total_images fold_right].
  fold (sum_total_images l).
  assert (total_images c <> 0) by (apply H; now left).
  assert (List.length l <= sum_total_images l)
    by (apply IH; intros; apply H; now right).
  lia.
Qed.

Lemma nodup_length_le {A} (dec : forall x y : A, {x = y} + {x <> y})
  (l : list A) :
  List.length (nodup dec l) <= List.length l.
Proof.
  induction l as [|x l IH]; [reflexivity|].
  cbn [nodup]. destruct (in_dec dec x l); cbn [List.length]; lia.
Qed.

Lemma nodup_nonempty {A} (dec : forall x y : A, {x = y} + {x <> y})
  (x : A) (l : list A) :
  1 <= List.length (nodup dec (x :: l)).
Proof.
  assert (H : In x (nodup dec (x :: l))) by (apply nodup_In; now left).
  destruct (nodup dec (x :: l)); [easy | cbn; lia].
Qed.

(** X8.  In the statistics of a library, the number of sessions is at most
    the number of characters, which is at most the number of images (every
    discovered character has at least one); the three are zero exactly
    when nothing was discovered, and a library that is not empty has at
    least one session.  The call leaves the manager as a discovery does. *)
Theorem statistics_bounds (self : CharacterManager) (fs : node) (t : Z) :
  reachable self ->
  let stats := fst (get_character_statistics fs t self) in
  let characters := fst (discover_characters fs t false self) in
  snd (get_character_statistics fs t self)
    = snd (discover_characters fs t false self) /\
  stat_total_characters stats = List.length characters /\
  stat_total_sessions stats <= stat_total_characters stats /\
  stat_total_characters stats <= stat_total_images stats /\
  (characters = [] ->
     stat_total_images stats = 0 /\ stat_total_sessions stats = 0 /\
     stat_creation_date_range stats = None /\
     stat_style_breakdown stats = [] /\
     stat_average_images_per_character stats = None) /\
  (characters <> [] ->
     1 <= stat_total_sessions stats /\
     stat_average_images_per_character stats
       = Some (stat_total_images stats, stat_total_characters stats)).
Proof.
  intros R. cbv zeta. unfold get_character_statistics.
  destruct (discover_is_scan self fs t false R) as (fs0 & E & _).
  destruct (discover_characters fs t false self) as [l self'].
  cbn [fst snd] in *. subst l.
  assert (P : forall r, In r (fresh_scan fs0 (scan_locations self)) ->
                        total_images r <> 0)
    by (intros r Hr; now apply fresh_scan_record in Hr).
  revert P. generalize (fresh_scan fs0 (scan_locations self)) as l.
  intros [|c l] P.
  - cbn. repeat split; auto; congruence.
  - unfold statistics_of.
    cbn [stat_total_characters stat_total_images stat_total_sessions
         stat_average_images_per_character].
    repeat split; try discriminate.
    + unfold count_sessions.
      etransitivity; [apply nodup_length_le | now rewrite length_map].
    + now apply sum_total_images_at_least.
    + unfold count_sessions. cbn [map]. apply nodup_nonempty.
Qed.

Lemma statistics_bounds_witness :
  reachable demo_manager /\
  stat_total_sessions (fst (get_character_statistics demo_tree 0 demo_manager))
    = 2 /\
  stat_total_characters
    (fst (get_character_statistics demo_tree 0 demo_manager)) = 3 /\
  stat_total_images (fst (get_character_statistics demo_tree 0 demo_manager))
    = 6 /\
  stat_total_sessions (fst (get_character_statistics demo_tree 0 demo_manager))
    <= stat_total_characters
         (fst (get_character_statistics demo_tree 0 demo_manager)).
Proof.
  assert (R : reachable demo_manager) by apply reach_init.
  split; [exact R|]. repeat (split; [reflexivity|]).
  exact (proj1 (proj2 (proj2
           (statistics_bounds demo_manager demo_tree 0 R)))).
Defined.

(** ** The date range *)

Lemma max_date_sorted (c : CharacterInfo) (l : list CharacterInfo) :
  StronglySorted newer_or_same (c :: l) ->
  max_date (creation_date c) (map creation_date l) = creation_date c.
Proof.
  intros S. inversion S as [|? ? _ F]; subst. clear S.
  unfold max_date. induction l as [|d l IH]; [reflexivity|].
  cbn [map fold_left]. inversion F as [|? ? Hd F']; subst.
  unfold newer_or_same in Hd. rewrite Z.max_l by lia. now apply IH.
Qed.

Lemma last_cons_default {A} (l : list A) (a d d' : A) :
  last (a :: l) d = last (a :: l) d'.
Proof.
  revert a. induction l as [|b l IH]; intros a; [reflexivity|].
  change (last (b :: l) d = last (b :: l) d'). apply IH.
Qed.

Lemma last_in {A} (l : list A) (a d : A) : In (last (a :: l) d) (a :: l).
Proof.
  revert a. induction l as [|b l IH]; intros a; [now left|].
  change (In (last (b :: l) d) (a :: b :: l)). right. apply IH.
Qed.

Lemma min_date_sorted (c : CharacterInfo) (l : list CharacterInfo) :
  StronglySorted newer_or_same (c :: l) ->
  min_date (creation_date c) (map creation_date l)
    = creation_date (last l c).
Proof.
  unfold min_date. revert c. induction l as [|d l IH]; intros c S;
    [reflexivity|].
  inversion S as [|? ? S' F]; subst. inversion F as [|? ? Hd _]; subst.
  unfold newer_or_same in Hd. cbn [map fold_left].
  rewrite Z.min_r by lia. rewrite (IH d S').
  destruct l as [|e l]; [reflexivity|].
  change (last (d :: e :: l) c) with (last (e :: l) c).
  f_equal. apply last_cons_default.
Qed.

(** X9.  Since the discovered list is newest first, the date range of the
    statistics runs from the creation date of the last record of the list
    (earliest) to that of the first one (latest), and earliest is at most
    latest. *)
Theorem statistics_date_range (self : CharacterManager) (fs : node) (t : Z)
  (first : CharacterInfo) (rest : list CharacterInfo) :
  reachable self ->
  fst (discover_characters fs t false self) = first :: rest ->
  stat_creation_date_range (fst (get_character_statistics fs t self))
    = Some (creation_date (last rest first), creation_date first) /\
  (creation_date (last rest first) <= creation_date first)%Z.
Proof.
  intros R E. unfold get_character_statistics.
  destruct (discover_is_scan self fs t false R) as (fs0 & E0 & _).
  assert (S : StronglySorted newer_or_same (first :: rest)).
  { rewrite <- E, E0. apply sort_sorted. }
  destruct (discover_characters fs t false self) as [l self'].
  cbn [fst] in *. subst l.
  cbn [statistics_of stat_creation_date_range].
  rewrite (min_date_sorted _ _ S), (max_date_sorted _ _ S).
  split; [reflexivity|].
  inversion S as [|? ? _ F]; subst. rewrite Forall_forall in F.
  destruct rest as [|d rest]; [cbn; lia|].
  apply (F (last (d :: rest) first)), last_in.
Qed.

Lemma statistics_date_range_witness :
  reachable demo_manager /\
  fst (discover_characters demo_tree 0 false demo_manager)
    = demo_char_b :: [demo_bob; demo_char_a] /\
  stat_creation_date_range
    (fst (get_character_statistics demo_tree 0 demo_manager))
    = Some (100%Z, 300%Z).
Proof.
  assert (R : reachable demo_manager) by apply reach_init.
  assert (E : fst (discover_characters demo_tree 0 false demo_manager)
              = demo_char_b :: [demo_bob; demo_char_a]) by reflexivity.
  split; [exact R|]. split; [exact E|].
  exact (proj1 (statistics_date_range demo_manager demo_tree 0 demo_char_b
                  [demo_bob; demo_char_a] R E)).
Defined.

(** ** The summaries written into archives *)

Lemma sum_total_images_split (fs : node) (l : list CharacterInfo) :
  (forall r, In r l ->
     total_images r =
       (if base_image_exists fs r then 1 else 0)
       + realistic_count r + sum_values (styled_counts r)) ->
  sum_total_images l =
    List.length (filter (base_image_exists fs) l)
    + fold_right (fun char acc => realistic_count char + acc) 0 l
    + sum_over (fun c => sum_values (styled_counts c)) l.
Proof.
  induction l as [|c l IH]; intros H; [reflexivity|].
  cbn [sum_total_images fold_right filter]. rewrite sum_over_cons.
  fold (sum_total_images l).
  rewrite IH by (intros; apply H; now right).
  rewrite (H c (or_introl eq_refl)).
  destruct (base_image_exists fs c); cbn [List.length]; lia.
Qed.

Lemma filter_length_le {A} (f : A -> bool) (l : list A) :
  List.length (filter f l) <= List.length l.
Proof.
  induction l as [|x l IH]; [reflexivity|].
  cbn [filter]. destruct (f x); cbn [List.length]; lia.
Qed.

(** X10.  For any selection of records taken from one scan, the batch
    summary adds up: its total number of images is the number of selected
    characters that had a base image at the scan, plus the total of
    realistic variations, plus the sum of the style breakdown; so it lies
    between realistic + styled and realistic + styled + number of
    characters.  The characters are listed in the order given, one element
    each. *)
Theorem batch_summary_adds_up (fs : node) (locations : list Path)
  (selected : list CharacterInfo) (now : Z) :
  incl selected (fresh_scan fs locations) ->
  let summary := _create_batch_summary now selected in
  batch_total_images summary =
    List.length (filter (base_image_exists fs) selected)
    + batch_total_realistic_variations summary
    + sum_values (batch_style_breakdown summary) /\
  batch_total_realistic_variations summary
    + sum_values (batch_style_breakdown summary)
    <= batch_total_images summary /\
  batch_total_images summary
    <= batch_total_realistic_variations summary
       + sum_values (batch_style_breakdown summary)
       + batch_total_characters summary /\
  map listed_character_id (batch_characters summary)
    = map character_id selected /\
  map listed_image_count (batch_characters summary)
    = map total_images selected.
Proof.
  intros Hincl. cbv zeta.
  cbn [_create_batch_summary batch_total_images
       batch_total_realistic_variations batch_style_breakdown
       batch_total_characters batch_characters].
  destruct (aggregate_styles_fold selected [] "") as (_ & S & _).
  unfold aggregate_styles. rewrite S. cbn [sum_values fold_right plus].
  rewrite (sum_total_images_split fs selected).
  2:{ intros r Hr. now apply (fresh_scan_record fs locations), Hincl. }
  pose proof (filter_length_le (base_image_exists fs) selected).
  rewrite !map_map. cbn [listed_character_id listed_image_count].
  repeat split; lia.
Qed.

Lemma batch_summary_adds_up_witness :
  incl [demo_char_a; demo_bob] (fresh_scan demo_tree [["studio"]]) /\
  batch_total_images (_create_batch_summary 0 [demo_char_a; demo_bob]) = 5 /\
  batch_total_images (_create_batch_summary 0 [demo_char_a; demo_bob]) =
    List.length (filter (base_image_exists demo_tree) [demo_char_a; demo_bob])
    + batch_total_realistic_variations
        (_create_batch_summary 0 [demo_char_a; demo_bob])
    + sum_values (batch_style_breakdown
                    (_create_batch_summary 0 [demo_char_a; demo_bob])).
Proof.
  assert (H : incl [demo_char_a; demo_bob] (fresh_scan demo_tree [["studio"]])).
  { intros x [<-|[<-|[]]]; vm_compute; auto. }
  split; [exact H|]. split; [reflexivity|].
  exact (proj1 (batch_summary_adds_up demo_tree [["studio"]]
                  [demo_char_a; demo_bob] 0 H)).
Defined.

(** X11.  The summary of a character that is exported from the filesystem
    it was scanned on adds up: total = base image (0 or 1) + realistic
    variations + the sum of the styled images.  The base image figure is
    read from the disk at export time while the others come from the
    record, so on a filesystem where the base image has since gone the
    total is one more than the parts. *)
Theorem character_summary_adds_up (fs fs' : node) (locations : list Path)
  (now : Z) (r : CharacterInfo) :
  In r (fresh_scan fs locations) ->
  let summary := _create_character_summary fs now r in
  let later := _create_character_summary fs' now r in
  summary_total_images summary =
    summary_base_image summary + summary_realistic_variations summary
    + sum_values (summary_styled_images summary) /\
  (base_image_exists fs r = true -> base_image_exists fs' r = false ->
   summary_total_images later =
     1 + (summary_base_image later + summary_realistic_variations later
          + sum_values (summary_styled_images later))).
Proof.
  intros Hr. apply fresh_scan_record in Hr as [Ht _]. cbv zeta.
  cbn [_create_character_summary summary_total_images summary_base_image
       summary_realistic_variations summary_styled_images].
  split; [exact Ht|]. intros H1 H2. rewrite Ht, H1, H2. lia.
Qed.

Lemma character_summary_adds_up_witness :
  In demo_bob (fresh_scan demo_tree [["studio"]]) /\
  summary_total_images (_create_character_summary demo_tree 0 demo_bob) =
    summary_base_image (_create_character_summary demo_tree 0 demo_bob)
    + summary_realistic_variations
        (_create_character_summary demo_tree 0 demo_bob)
    + sum_values (summary_styled_images
                    (_create_character_summary demo_tree 0 demo_bob)) /\
  summary_total_images (_create_character_summary emptied_tree 0 demo_bob) = 1
  /\ summary_base_image (_create_character_summary emptied_tree 0 demo_bob)
     = 0.
Proof.
  assert (H : In demo_bob (fresh_scan demo_tree [["studio"]]))
    by (vm_compute; auto).
  split; [exact H|].
  split; [|split; reflexivity].
  exact (proj1 (character_summary_adds_up demo_tree emptied_tree [["studio"]]
                  0 demo_bob H)).
Defined.

(** * Preview images *)

Lemma insert_path_in (p q : Path) (l : list Path) :
  In q (insert_path p l) <-> q = p \/ In q l.
Proof.
  induction l as [|x l IH]; cbn [insert_path].
  - cbn. intuition.
  - destruct (path_leb p x); cbn [In]; [intuition|].
    rewrite IH. intuition.
Qed.

Lemma sorted_paths_in (q : Path) (l : list Path) :
  In q (sorted_paths l) <-> In q l.
Proof.
  induction l as [|p l IH]; [reflexivity|].
  cbn [sorted_paths fold_right]. fold (sorted_paths l).
  rewrite insert_path_in, IH. cbn. intuition.
Qed.

Lemma enumerate_length {A} (l : list A) (n : nat) :
  List.length (enumerate l n) = List.length l.
Proof.
  revert n. induction l as [|x l IH]; intros n; [reflexivity|].
  cbn. now rewrite IH.
Qed.

Lemma enumerate_in {A} (l : list A) (n i : nat) (x : A) :
  In (i, x) (enumerate l n) -> In x l /\ n <= i < n + List.length l.
Proof.
  revert n. induction l as [|y l IH]; intros n; [easy|].
  cbn [enumerate In List.length]. intros [[= <- <-]|H].
  - split; [now left | lia].
  - apply IH in H as [H1 H2]. split; [now right | lia].
Qed.

Lemma firstn_in {A} (n : nat) (l : list A) (x : A) :
  In x (firstn n l) -> In x l.
Proof.
  intros H. rewrite <- (firstn_skipn n l). apply in_or_app. now left.
Qed.

Lemma slice_to_in {A} (l : list A) (n : Z) (x : A) :
  In x (slice_to l n) -> In x l.
Proof.
  unfold slice_to. destruct (0 <=? n)%Z; apply firstn_in.
Qed.

Lemma slice_to_length {A} (l : list A) (n : Z) :
  List.length (slice_to l n) <= List.length l /\
  ((0 <= n)%Z -> List.length (slice_to l n) <= Z.to_nat n).
Proof.
  unfold slice_to. destruct (Z.leb_spec 0 n); rewrite length_firstn; lia.
Qed.

Lemma slice_to_all {A} (l : list A) (n : Z) :
  (Z.of_nat (List.length l) <= n)%Z -> slice_to l n = l.
Proof.
  intros H. unfold slice_to.
  destruct (Z.leb_spec 0 n); [|lia]. apply firstn_all2. lia.
Qed.

Lemma slice_to_none {A} (l : list A) (n : Z) :
  (n <= - Z.of_nat (List.length l))%Z -> slice_to l n = [].
Proof.
  intros H. unfold slice_to. destruct (Z.leb_spec 0 n).
  - assert (List.length l = 0) by lia. destruct l; [|discriminate].
    now rewrite firstn_nil.
  - replace (List.length l - Z.to_nat (- n)) with 0 by lia. reflexivity.
Qed.

Lemma previews_before_cut (fs : node) (c : CharacterInfo) :
  exists l,
    (forall m, get_character_preview_images fs c m = slice_to l m) /\
    List.length l <= 6 /\
    Forall (fun pl => exists_ fs (fst pl) = true) l /\
    (forall p, In (p, BaseCharacterLabel) l -> base_image_path c = Some p) /\
    (forall p i, In (p, VariationLabel i) l ->
       1 <= i <= 3 /\
       In p (glob fs (path c // "ConsistencyTests") "Realistic_*.png")) /\
    (forall p s, In (p, StyleLabel s) l ->
       In s (map fst (firstn 2 (styled_counts c))) /\
       In p (glob fs (path c // "Styles" // s) "*.png")).
Proof.
  unfold get_character_preview_images.
  set (base := match base_image_path c with
               | Some p => if exists_ fs p then [(p, BaseCharacterLabel)] else []
               | None => [] end).
  set (realistic := if exists_ fs (path c // "ConsistencyTests")
                    then _ else []).
  set (styled := if exists_ fs (path c // "Styles") then _ else []).
  exists (base ++ realistic ++ styled).
  assert (Bl : List.length base <= 1 /\
               forall pl, In pl base ->
                 exists_ fs (fst pl) = true /\ snd pl = BaseCharacterLabel /\
                 base_image_path c = Some (fst pl)).
  { subst base. destruct (base_image_path c) as [p|]; [|cbn; split; [lia|easy]].
    destruct (exists_ fs p) eqn:E; cbn; split; try lia; try easy.
    intros pl [<-|[]]. auto. }
  assert (Rl : List.length realistic <= 3 /\
               forall pl, In pl realistic ->
                 exists i, snd pl = VariationLabel i /\ 1 <= i <= 3 /\
                 In (fst pl)
                    (glob fs (path c // "ConsistencyTests") "Realistic_*.png")).
  { subst realistic.
    destruct (exists_ fs (path c // "ConsistencyTests"));
      [|cbn; split; [lia|easy]].
    split.
    - rewrite length_map, enumerate_length, length_firstn. lia.
    - intros pl H. apply in_map_iff in H as ([i q] & <- & H).
      apply enumerate_in in H as [H Hi]. rewrite length_firstn in Hi.
      apply firstn_in in H.
      apply (proj1 (sorted_paths_in _ _)) in H.
      exists i. cbn [fst snd]. repeat split; auto; lia. }
  assert (Sl : List.length styled <= 2 /\
               forall pl, In pl styled ->
                 exists s, snd pl = StyleLabel s /\
                 In s (map fst (firstn 2 (styled_counts c))) /\
                 In (fst pl) (glob fs (path c // "Styles" // s) "*.png")).
  { subst styled.
    destruct (exists_ fs (path c // "Styles")); [|cbn; split; [lia|easy]].
    split.
    - assert (L : List.length (firstn 2 (styled_counts c)) <= 2)
        by (rewrite length_firstn; lia).
      revert L. generalize (firstn 2 (styled_counts c)) as items.
      assert (G : forall items : list (string * nat),
        List.length
          (flat_map
             (fun kv =>
                if exists_ fs (path c // "Styles" // fst kv)
                then map (fun img => (img, StyleLabel (fst kv)))
                       (firstn 1
                          (sorted_paths
                             (glob fs (path c // "Styles" // fst kv) "*.png")))
                else []) items) <= List.length items).
      { induction items as [|kv items IH]; [reflexivity|].
        cbn [flat_map List.length]. rewrite length_app.
        destruct (exists_ fs (path c // "Styles" // fst kv)).
        - rewrite length_map, length_firstn. lia.
        - cbn [List.length]. lia. }
      intros items L. specialize (G items). lia.
    - intros pl H. apply in_flat_map in H as (kv & Hkv & H).
      destruct (exists_ fs (path c // "Styles" // fst kv)); [|easy].
      apply in_map_iff in H as (q & <- & H).
      apply firstn_in in H.
      apply (proj1 (sorted_paths_in _ _)) in H.
      exists (fst kv). cbn [fst snd]. repeat split; auto.
      now apply in_map. }
  destruct Bl as [Bl Bi], Rl as [Rl Ri], Sl as [Sl Si].
  split; [reflexivity|]. split; [rewrite !length_app; lia|].
  split; [|split; [|split]].
  - apply Forall_forall. intros pl H.
    apply in_app_or in H as [H|H]; [now apply Bi|].
    apply in_app_or in H as [H|H].
    + destruct (Ri pl H) as (i & _ & _ & G). eapply glob_exists; eauto.
    + destruct (Si pl H) as (s & _ & _ & G). eapply glob_exists; eauto.
  - intros p H. apply in_app_or in H as [H|H]; [now apply Bi in H|].
    apply in_app_or in H as [H|H].
    + destruct (Ri _ H) as (i & E & _). discriminate.
    + destruct (Si _ H) as (s & E & _). discriminate.
  - intros p i H. apply in_app_or in H as [H|H];
      [apply Bi in H as (_ & E & _); discriminate|].
    apply in_app_or in H as [H|H].
    + destruct (Ri _ H) as (j & E & Hj & G). cbn [snd] in E.
      injection E as <-. auto.
    + destruct (Si _ H) as (s & E & _). discriminate.
  - intros p s H. apply in_app_or in H as [H|H];
      [apply Bi in H as (_ & E & _); discriminate|].
    apply in_app_or in H as [H|H].
    + destruct (Ri _ H) as (j & E & _). discriminate.
    + destruct (Si _ H) as (s' & E & Hs & G). cbn [snd] in E.
      injection E as <-. auto.
Qed.

(** X12.  [get_character_preview_images] never returns more than six
    previews, nor more than a non-negative [max_previews]; every path it
    returns exists; a limit of six or more (six is the default) cuts
    nothing, a limit of zero or of minus six or less leaves nothing; the
    base image comes from the record, a variation is one of at most three
    numbered from 1 among the [Realistic_*.png] of ConsistencyTests, and a
    styled preview comes from the folder of one of the record's first two
    styles. *)
Theorem preview_images_bounded (fs : node) (c : CharacterInfo) (m : Z) :
  let previews := get_character_preview_images fs c m in
  List.length previews <= 6 /\
  ((0 <= m)%Z -> List.length previews <= Z.to_nat m) /\
  ((6 <= m)%Z -> previews = get_character_preview_images fs c 6) /\
  ((m = 0 \/ m <= -6)%Z -> previews = []) /\
  Forall (fun pl => exists_ fs (fst pl) = true) previews /\
  (forall p, In (p, BaseCharacterLabel) previews ->
             base_image_path c = Some p) /\
  (forall p i, In (p, VariationLabel i) previews ->
     1 <= i <= 3 /\
     In p (glob fs (path c // "ConsistencyTests") "Realistic_*.png")) /\
  (forall p s, In (p, StyleLabel s) previews ->
     In s (map fst (firstn 2 (styled_counts c))) /\
     In p (glob fs (path c // "Styles" // s) "*.png")).
Proof.
  cbv zeta.
  destruct (previews_before_cut fs c) as (l & E & L & F & B & V & S).
  rewrite !E. destruct (slice_to_length l m) as [L1 L2].
  split; [lia|]. split; [exact L2|].
  split; [intros H; rewrite !slice_to_all; auto; lia|].
  split.
  - intros [->|H]; [reflexivity | apply slice_to_none; lia].
  - split; [|split; [|split]].
    + apply Forall_forall. intros pl H. apply slice_to_in in H.
      rewrite Forall_forall in F. auto.
    + intros p H. apply slice_to_in in H. auto.
    + intros p i H. apply slice_to_in in H. auto.
    + intros p s H. apply slice_to_in in H. auto.
Qed.

Example preview_images_demo :
  get_character_preview_images demo_tree demo_char_a 6 =
    [(["studio"; "Session_1"; "Char_a"; "Base-Character.png"],
      BaseCharacterLabel);
     (["studio"; "Session_1"; "Char_a"; "ConsistencyTests";
       "Realistic_001.png"], VariationLabel 1);
     (["studio"; "Session_1"; "Char_a"; "ConsistencyTests";
       "Realistic_002.png"], VariationLabel 2);
     (["studio"; "Session_1"; "Char_a"; "Styles"; "ghibli"; "ghibli_001.png"],
      StyleLabel "ghibli")]
  /\ List.length (get_character_preview_images demo_tree demo_char_a (-1)) = 3
  /\ List.length (get_character_preview_images demo_tree demo_char_a 2) = 2.
Proof. repeat split. Qed.

(** * More about archives *)

(** ** The estimate and the archive read the same files *)


Lemma glob_missing (fs : node) (p : Path) (pat : string) :
  exists_ fs p = false -> glob fs p pat = [].
Proof.
  unfold exists_, glob. destruct (resolve fs p); easy.
Qed.





Example estimate_counts_the_archived_files_demo :
  all_counted_files demo_tree [demo_char_a; demo_bob] =
    Ok [["studio"; "Session_1"; "Char_a"; "Base-Character.png"];
        ["studio"; "Session_1"; "Char_a"; "ConsistencyTests";
         "Realistic_001.png"];
        ["studio"; "Session_1"; "Char_a"; "ConsistencyTests";
         "Realistic_002.png"];
        ["studio"; "Session_1"; "Char_a"; "Styles"; "ghibli";
         "ghibli_001.png"];
        ["studio"; "legacy"; "bob"; "Base-Image.png"]]
  /\ all_counted_files broken_tree [broken_char] =
       Raise (NotADirectoryError ["studio"; "Session_2"; "Char_x"; "Styles"]).
Proof. split; reflexivity. Qed.

(** An estimate is given for a batch that cannot be built. *)
Example estimate_of_an_antique :
  get_estimated_zip_size antique_tree [antique_char] = (700%Z, KB 700)
  /\ create_batch_zip antique_tree "/tmp/b.zip" [antique_char] false =
       ((false, ErrorCreatingBatchZip ValueError, None), None).
Proof. split; vm_compute; reflexivity. Qed.

(** ** Metadata only adds entries *)







(** A metadata file last modified in 1970 is in the way of the build with
    metadata only. *)
Example metadata_can_break_a_build :
  fst (create_character_zip dusty_tree "/tmp/d.zip" dusty_char false)
    = (true, ZipCreated "Char_d", Some "/tmp/d.zip")
  /\ fst (create_character_zip dusty_tree "/tmp/d.zip" dusty_char true)
    = (false, ErrorCreatingZip ValueError, None).
Proof. split; reflexivity. Qed.

(** ** A batch folder is a single archive under a prefix *)





(** * What discovery finds *)

(** ** When a directory is a character *)

Lemma listed_child (fs : node) (p : Path) (c : string) :
  exists_ fs (p // c) = true ->
  exists st listing e,
    resolve fs p = Some (Dir st listing) /\ In e listing /\ fst e = c.
Proof.
  unfold exists_. rewrite resolve_join.
  destruct (resolve fs p) as [[|st listing]|]; try easy.
  unfold child. destruct (find _ listing) as [e|] eqn:F; [|easy].
  apply find_some in F as [Hin He]. apply String.eqb_eq in He.
  intros _. exists st, listing, e. auto.
Qed.

Lemma glob_intro (fs : node) (p : Path) (pat c : string) :
  exists_ fs (p // c) = true -> fnmatch pat c = true ->
  In (p // c) (glob fs p pat).
Proof.
  intros E M. destruct (listed_child fs p c E) as (st & l & e & R & Hin & <-).
  unfold glob. rewrite R. apply in_map_iff. exists e. split; [reflexivity|].
  apply filter_In. auto.
Qed.

Lemma iterdir_intro (fs : node) (p : Path) (c : string) :
  exists_ fs (p // c) = true ->
  exists l, iterdir fs p = Ok l /\ In (p // c) l.
Proof.
  intros E. destruct (listed_child fs p c E) as (st & l & e & R & Hin & <-).
  unfold iterdir. rewrite R. eexists. split; [reflexivity|].
  apply in_map_iff. exists e. auto.
Qed.

Lemma count_styles_mem (fs : node) (dirs : list Path)
  (acc : list (string * nat)) (d : Path) :
  In d dirs -> is_dir fs d = true ->
  exists n,
    dict_get
      (fold_left
         (fun counts style_dir =>
            if is_dir fs style_dir
            then dict_set counts (name style_dir)
                          (List.length (glob fs style_dir "*.png"))
            else counts) dirs acc) (name d) = Some n.
Proof.
  revert acc. induction dirs as [|x dirs IH]; intros acc; [easy|].
  intros [->|Hin] D; cbn [fold_left].
  - rewrite D. clear IH.
    assert (G : forall l a, (exists n, dict_get a (name d) = Some n) ->
      exists n,
        dict_get
          (fold_left
             (fun counts style_dir =>
                if is_dir fs style_dir
                then dict_set counts (name style_dir)
                              (List.length (glob fs style_dir "*.png"))
                else counts) l a) (name d) = Some n).
    { induction l as [|y l IHl]; intros a Ha; [exact Ha|].
      cbn [fold_left]. apply IHl. destruct (is_dir fs y); [|exact Ha].
      rewrite dict_get_set. destruct (name y =? name d); eauto. }
    apply G. rewrite dict_get_set, String.eqb_refl. eauto.
  - now apply IH.
Qed.

Lemma sum_values_get (d : list (string * nat)) (k : string) (n : nat) :
  dict_get d k = Some n -> n <= sum_values d.
Proof.
  unfold dict_get. induction d as [|[k0 v0] d IH]; [discriminate|].
  cbn [find fst sum_values fold_right snd]. fold (sum_values d).
  destruct (k0 =? k); cbn [option_map snd].
  - intros [= ->]. lia.
  - intros H. apply IH in H. lia.
Qed.

Lemma dict_set_values (d : list (string * nat)) (k : string) (v : nat)
  (P : nat -> Prop) :
  Forall (fun kv => P (snd kv)) d -> P v ->
  Forall (fun kv => P (snd kv)) (dict_set d k v).
Proof.
  intros F Pv. induction d as [|[k0 v0] d IH]; cbn [dict_set].
  - now constructor.
  - inversion F as [|? ? H0 F']; subst.
    destruct (k0 =? k); constructor; auto.
Qed.

Lemma count_styles_values (fs : node) (dirs : list Path) :
  Forall (fun kv => exists d, In d dirs /\ is_dir fs d = true /\
                              snd kv = List.length (glob fs d "*.png"))
         (count_styles fs dirs).
Proof.
  unfold count_styles.
  assert (G : forall l acc,
    Forall (fun kv => exists d, In d dirs /\ is_dir fs d = true /\
                                snd kv = List.length (glob fs d "*.png")) acc ->
    incl l dirs ->
    Forall (fun kv => exists d, In d dirs /\ is_dir fs d = true /\
                                snd kv = List.length (glob fs d "*.png"))
      (fold_left
         (fun counts style_dir =>
            if is_dir fs style_dir
            then dict_set counts (name style_dir)
                          (List.length (glob fs style_dir "*.png"))
            else counts) l acc)).
  { induction l as [|x l IH]; intros acc F I; [exact F|].
    cbn [fold_left]. apply IH; [|intros y Hy; apply I; now right].
    destruct (is_dir fs x) eqn:D; [|exact F].
    apply (dict_set_values acc (name x) _
             (fun n => exists d, In d dirs /\ is_dir fs d = true /\
                                 n = List.length (glob fs d "*.png")));
      [exact F|].
    exists x. repeat split; auto. apply I. now left. }
  apply G; [constructor | apply incl_refl].
Qed.

Lemma sum_values_positive (d : list (string * nat)) :
  0 < sum_values d -> exists kv, In kv d /\ 0 < snd kv.
Proof.
  induction d as [|kv d IH]; cbn [sum_values fold_right]; [lia|].
  fold (sum_values d). intros H.
  destruct (Nat.eq_dec (snd kv) 0) as [E|E].
  - destruct IH as (kv' & Hin & Hp); [lia|]. exists kv'. split; [now right|auto].
  - exists kv. split; [now left | lia].
Qed.

Lemma count_styles_last (fs : node) (sp : Path) (dirs : list Path) (d : Path) :
  (forall x, In x dirs -> exists c, x = sp // c) ->
  In d dirs -> is_dir fs d = true ->
  dict_get (count_styles fs dirs) (name d)
    = Some (List.length (glob fs d "*.png")).
Proof.
  unfold count_styles. induction dirs as [|x dirs IH] using rev_ind; [easy|].
  intros C Hin D. rewrite fold_left_app. cbn [fold_left].
  assert (C' : forall y, In y dirs -> exists c, y = sp // c)
    by (intros y Hy; apply C, in_or_app; now left).
  destruct (is_dir fs x) eqn:Dx.
  - rewrite dict_get_set.
    destruct (String.eqb_spec (name x) (name d)) as [E|E].
    + destruct (C x) as [cx ->]; [apply in_or_app; right; now left|].
      destruct (C d Hin) as [cd ->]. rewrite !name_join in E. now subst.
    + apply in_app_or in Hin as [Hin|[->|[]]]; [now apply IH | congruence].
  - apply in_app_or in Hin as [Hin|[->|[]]]; [now apply IH | congruence].
Qed.

Lemma stat_missing (fs : node) (p : Path) :
  exists_ fs p = false -> stat fs p = Raise (FileNotFoundError p).
Proof.
  unfold exists_, stat. destruct (resolve fs p) as [[|]|]; easy.
Qed.

Lemma length_positive {A} (l : list A) : l <> [] <-> 0 < List.length l.
Proof. destruct l; cbn; split; intros; try lia; congruence. Qed.

(** X16.  [_analyze_character_directory] reports a directory exactly when
    the directory exists, its [Styles] entry (if there is one) is a
    directory, and it holds at least one image that is counted.  In
    particular a character whose [Styles] is a regular file is dropped
    whatever images it has, and metadata plays no part: neither a missing
    nor an unreadable metadata file keeps a character out. *)
Theorem analysis_outcome (fs : node) (sid cid : string) (p : Path) :
  (exists r, _analyze_character_directory fs sid cid p = Some r) <->
  exists_ fs p = true /\
  (exists_ fs (p // "Styles") = true -> is_dir fs (p // "Styles") = true) /\
  has_counted_image fs p.
Proof.
  unfold _analyze_character_directory, analyze_body, has_counted_image.
  destruct (exists_ fs p) eqn:Ep.
  2:{ rewrite (stat_missing fs p Ep). cbn [bind].
      split; [intros [r H]; discriminate | intros [H _]; discriminate]. }
  destruct (stat_exists fs p Ep) as [st ->]. cbn [bind].
  destruct (if exists_ fs _ then load_base_metadata fs _ else _)
    as [[metadata the_prompt] config].
  set (base := find (exists_ fs) (map (fun c => p // c) base_image_candidates)).
  set (realistic := if exists_ fs (p // "ConsistencyTests")
                    then List.length (glob fs (p // "ConsistencyTests")
                                           "Realistic_*.png")
                    else 0).
  assert (Hreal : 0 < realistic <->
                  glob fs (p // "ConsistencyTests") "Realistic_*.png" <> []).
  { subst realistic. rewrite length_positive.
    destruct (exists_ fs (p // "ConsistencyTests")) eqn:E; [reflexivity|].
    rewrite glob_missing by exact E. cbn. lia. }
  assert (Hbase : (match base with
                   | Some q => if exists_ fs q then 1 else 0
                   | None => 0 end = 1 <->
                   exists_ fs (p // "Base-Character.png") = true \/
                   exists_ fs (p // "Base-Image.png") = true) /\
                  (match base with
                   | Some q => if exists_ fs q then 1 else 0
                   | None => 0 end <= 1)).
  { subst base. cbn [base_image_candidates map find].
    destruct (exists_ fs (p // "Base-Character.png")) eqn:E1.
    - rewrite E1. split; [tauto | lia].
    - destruct (exists_ fs (p // "Base-Image.png")) eqn:E2.
      + rewrite E2. split; [tauto | lia].
      + split; [|lia]. split; [lia | intros [?|?]; discriminate]. }
  destruct Hbase as [Hbase Hle].
  destruct (exists_ fs (p // "Styles")) eqn:Es.
  - unfold iterdir.
    destruct (is_dir fs (p // "Styles")) eqn:Ds; unfold is_dir in Ds.
    + destruct (resolve fs (p // "Styles")) as [[|sst listing]|] eqn:Rs;
        try discriminate.
      cbn [bind].
      set (dirs := map (fun e => p // "Styles" // fst e) listing).
      assert (Cd : forall x, In x dirs -> exists c, x = p // "Styles" // c).
      { intros x Hx. apply in_map_iff in Hx as (e & <- & _). eauto. }
      assert (Hsty : 0 < sum_values (count_styles fs dirs) <->
                exists style, is_dir fs (p // "Styles" // style) = true /\
                              glob fs (p // "Styles" // style) "*.png" <> []).
      { split.
        - intros H. apply sum_values_positive in H as (kv & Hin & Hp).
          pose proof (count_styles_values fs dirs) as F.
          rewrite Forall_forall in F.
          destruct (F kv Hin) as (d & Hd & Dd & E).
          destruct (Cd d Hd) as [c ->]. exists c. split; [exact Dd|].
          apply length_positive. lia.
        - intros (style & Dd & G). apply length_positive in G.
          assert (Hd : In (p // "Styles" // style) dirs).
          { destruct (iterdir_intro fs (p // "Styles") style
                        (is_dir_exists _ _ Dd)) as (l & Il & Hin).
            unfold iterdir in Il. rewrite Rs in Il. now injection Il as <-. }
          pose proof (count_styles_last fs _ dirs _ Cd Hd Dd) as E.
          apply sum_values_get in E. lia. }
      match goal with |- context [(0 <? ?t)%nat] =>
        destruct (Nat.ltb_spec 0 t) as [Ht|Ht] end.
      * split; [intros _ | eauto].
        split; [reflexivity|]. split; [reflexivity|].
        destruct (Nat.eq_dec
                    (match base with
                     | Some q => if exists_ fs q then 1 else 0
                     | None => 0 end) 1) as [Eb|Eb].
        -- apply Hbase in Eb. tauto.
        -- destruct (Nat.eq_dec realistic 0) as [Er|Er].
           ++ right; right; right. apply Hsty. lia.
           ++ right; right; left. apply Hreal. lia.
      * split; [intros [r H]; discriminate|].
        intros (_ & _ & [H|[H|[H|H]]]); exfalso.
        -- assert (match base with
                   | Some q => if exists_ fs q then 1 else 0
                   | None => 0 end = 1) by (apply Hbase; auto). lia.
        -- assert (match base with
                   | Some q => if exists_ fs q then 1 else 0
                   | None => 0 end = 1) by (apply Hbase; auto). lia.
        -- apply Hreal in H. lia.
        -- apply Hsty in H. lia.
    + assert (Rs : exists sst doc,
                resolve fs (p // "Styles") = Some (File sst doc)).
      { unfold exists_ in Es.
        destruct (resolve fs (p // "Styles")) as [[sst doc|]|];
          try discriminate; eauto. }
      destruct Rs as (sst & doc & ->). cbn [bind].
      split; [intros [r H]; discriminate|].
      intros (_ & H & _). specialize (H eq_refl). discriminate.
  - cbn [bind sum_values fold_right].
    assert (Hsty : ~ exists style, is_dir fs (p // "Styles" // style) = true /\
                     glob fs (p // "Styles" // style) "*.png" <> []).
    { intros (style & Dd & _). apply is_dir_exists in Dd.
      destruct (listed_child _ _ _ Dd) as (sst & l & e & R & _).
      unfold exists_ in Es. now rewrite R in Es. }
    match goal with |- context [(0 <? ?t)%nat] =>
      destruct (Nat.ltb_spec 0 t) as [Ht|Ht] end.
    * split; [intros _ | eauto].
      split; [reflexivity|]. split; [discriminate|].
      destruct (Nat.eq_dec
                  (match base with
                   | Some q => if exists_ fs q then 1 else 0
                   | None => 0 end) 1) as [Eb|Eb].
      -- apply Hbase in Eb. tauto.
      -- right; right; left. apply Hreal. lia.
    * split; [intros [r H]; discriminate|].
      intros (_ & _ & [H|[H|[H|H]]]); exfalso.
      -- assert (match base with
                 | Some q => if exists_ fs q then 1 else 0
                 | None => 0 end = 1) by (apply Hbase; auto). lia.
      -- assert (match base with
                 | Some q => if exists_ fs q then 1 else 0
                 | None => 0 end = 1) by (apply Hbase; auto). lia.
      -- apply Hreal in H. lia.
      -- now apply Hsty.
Qed.

Example analysis_outcome_cases :
  _analyze_character_directory broken_tree "Session_2" "Char_x"
    ["studio"; "Session_2"; "Char_x"] = None /\
  exists_ broken_tree ["studio"; "Session_2"; "Char_x"; "Base-Character.png"]
    = true /\
  _analyze_character_directory demo_tree "Session_1" "Char_empty"
    ["studio"; "Session_1"; "Char_empty"] = None /\
  _analyze_character_directory bare_tree "Session_1" "Char_a"
    ["studio"; "Session_1"; "Char_a"] = Some bare_char.
Proof. repeat split. Qed.

(** ** Discovery finds the character directories, all of them *)

Lemma analyzed_iff (fs : node) (sid cid : string) (p : Path)
  (r : CharacterInfo) :
  In r (analyzed fs sid cid p) <->
  _analyze_character_directory fs sid cid p = Some r.
Proof.
  unfold analyzed.
  destruct (_analyze_character_directory fs sid cid p) as [x|]; cbn.
  - split; [intros [->|[]]; reflexivity | intros [= ->]; now left].
  - split; [easy | discriminate].
Qed.

Lemma scan_standard_iff (fs : node) (location : Path) (r : CharacterInfo) :
  In r (scan_standard fs location) <->
  exists s c,
    startswith s "Session_" = true /\ startswith c "Char_" = true /\
    is_dir fs (location // s) = true /\
    is_dir fs (location // s // c) = true /\
    _analyze_character_directory fs s c (location // s // c) = Some r.
Proof.
  unfold scan_standard. split.
  - intros Hin. apply in_flat_map in Hin as (sp & Hsp & Hin).
    destruct (is_dir fs sp) eqn:Ds; [|easy].
    apply in_flat_map in Hin as (cp & Hcp & Hin).
    destruct (is_dir fs cp) eqn:Dc; [|easy].
    apply analyzed_iff in Hin.
    apply glob_child in Hsp as (s & -> & Ms).
    apply glob_child in Hcp as (c & -> & Mc).
    rewrite !name_join in Hin.
    rewrite (fnmatch_literal_star "Session_") in Ms by reflexivity.
    rewrite (fnmatch_literal_star "Char_") in Mc by reflexivity.
    exists s, c. auto.
  - intros (s & c & Ms & Mc & Ds & Dc & A).
    apply in_flat_map. exists (location // s). split.
    + apply glob_intro; [now apply is_dir_exists|].
      now rewrite (fnmatch_literal_star "Session_").
    + rewrite Ds. apply in_flat_map. exists (location // s // c). split.
      * apply glob_intro; [now apply is_dir_exists|].
        now rewrite (fnmatch_literal_star "Char_").
      * rewrite Dc, !name_join. now apply analyzed_iff.
Qed.

Lemma flat_mapM_intro {A B} (f : A -> result (list B)) xs ys x zs y :
  flat_mapM f xs = Ok ys -> In x xs -> f x = Ok zs -> In y zs -> In y ys.
Proof.
  revert ys. induction xs as [|a xs IH]; intros ys; [easy|].
  cbn [flat_mapM]. destruct (f a) as [as_|] eqn:Fa; [|discriminate].
  destruct (flat_mapM f xs) as [ws|]; [|discriminate].
  cbn [bind]. intros [= <-] [->|Hin] Fx Hy; apply in_or_app.
  - left. congruence.
  - right. eapply IH; eauto.
Qed.

Lemma legacy_iff (fs : node) (location : Path) (r : CharacterInfo) :
  In r (legacy_or_nothing fs location) <->
  exists s c,
    startswith s "Session_" = false /\ startswith s "." = false /\
    s <> "__pycache__" /\
    any_glob fs (location // s // c) "Base-*.png"
    || any_glob fs (location // s // c) "*metadata.json" = true /\
    is_dir fs (location // s) = true /\
    is_dir fs (location // s // c) = true /\
    _analyze_character_directory fs s c (location // s // c) = Some r.
Proof.
  unfold legacy_or_nothing, scan_non_standard. split.
  - destruct (iterdir fs location) as [sessions|] eqn:I; simpl; [|easy].
    destruct (flat_mapM (scan_candidate_session fs) sessions) as [l|] eqn:E;
      [|easy].
    intros Hin.
    destruct (flat_mapM_in _ _ _ _ E Hin) as (ps & zs & Hps' & Hps & Hz).
    unfold scan_candidate_session in Hps.
    destruct (is_dir fs ps) eqn:Ds; cbn [negb] in Hps;
      [|now inversion Hps; subst].
    destruct (startswith (name ps) "Session_") eqn:Hs;
      [now inversion Hps; subst|].
    destruct (startswith (name ps) ".") eqn:Hdot;
      [now inversion Hps; subst|].
    destruct (name ps =? "__pycache__") eqn:Hpy; cbn [orb] in Hps;
      [now inversion Hps; subst|].
    destruct (iterdir fs ps) as [cps|] eqn:Ic; simpl in Hps; [|discriminate].
    inversion Hps; subst zs; clear Hps.
    apply in_flat_map in Hz as (cp & Hcp & Hz).
    destruct (is_dir fs cp) eqn:Dc; cbn [negb] in Hz; [|easy].
    destruct (any_glob fs cp "Base-*.png" || any_glob fs cp "*metadata.json")
      eqn:G; [|easy].
    apply analyzed_iff in Hz.
    destruct (iterdir_child _ _ _ _ I Hps') as (s & ->).
    destruct (iterdir_child _ _ _ _ Ic Hcp) as (c & ->).
    rewrite !name_join in *. apply String.eqb_neq in Hpy.
    exists s, c. auto 10.
  - intros (s & c & Hs & Hdot & Hpy & G & Ds & Dc & A).
    destruct (iterdir_intro fs location s (is_dir_exists _ _ Ds))
      as (sessions & I & Hin).
    destruct (iterdir_intro fs (location // s) c (is_dir_exists _ _ Dc))
      as (cps & Ic & Hc).
    rewrite I. cbn [bind].
    destruct (flat_mapM_ok (scan_candidate_session fs) sessions) as [ys E];
      [intros; apply scan_candidate_session_ok|].
    rewrite E. eapply flat_mapM_intro; [exact E | exact Hin | |].
    + unfold scan_candidate_session.
      rewrite Ds, name_join, Hs, Hdot. apply String.eqb_neq in Hpy.
      rewrite Hpy, Ic. cbn [negb orb bind]. reflexivity.
    + apply in_flat_map. exists (location // s // c). split; [exact Hc|].
      rewrite Dc, G, !name_join. cbn [negb]. now apply analyzed_iff.
Qed.

Lemma character_directory_scanned (fs : node) (root : Path)
  (r : CharacterInfo) :
  In r (scan_all fs [root]) <->
  exists s c, character_directory fs root s c /\
              _analyze_character_directory fs s c (root // s // c) = Some r.
Proof.
  unfold scan_all, character_directory. cbn [flat_map]. rewrite app_nil_r.
  split.
  - destruct (exists_ fs root); [|easy].
    rewrite scan_location_passes, in_app_iff, scan_standard_iff, legacy_iff.
    intros [(s & c & H)|(s & c & H)]; exists s, c; intuition.
  - intros (s & c & (Ds & Dc & H) & A).
    assert (E : exists_ fs root = true).
    { destruct (listed_child fs root s (is_dir_exists _ _ Ds))
        as (st & l & e & R & _).
      unfold exists_. now rewrite R. }
    rewrite E, scan_location_passes, in_app_iff, scan_standard_iff, legacy_iff.
    destruct H as [H|H]; [left | right]; exists s, c; intuition.
Qed.

(** X17.  A fresh scan of the root returns exactly the analyses of its
    character directories: a record is in the result if and only if it is
    what [_analyze_character_directory] reports for some [root/s/c] that
    is a [Session_*/Char_*] directory or, in a session directory that is
    not named [Session_*], hidden or [__pycache__], a directory with a
    [Base-*.png] or [*metadata.json] file.  So no such character is
    missed, and nothing else is listed (a directory of a [Session_]
    directory not named [Char_*], for one, never is). *)
Theorem discovery_is_the_character_directories (fs : node) (root : Path)
  (r : CharacterInfo) :
  In r (fresh_scan fs [root]) <->
  exists s c, character_directory fs root s c /\
              _analyze_character_directory fs s c (root // s // c) = Some r.
Proof.
  rewrite fresh_scan_in. split.
  - intros H. apply find_some in H as [H _].
    now apply character_directory_scanned.
  - intros (s & c & Hd & A).
    assert (Hin : In r (scan_all fs [root]))
      by (apply character_directory_scanned; eauto).
    destruct (find_is_some (same_key r) _ r Hin) as [k F];
      [apply key_eqb_refl|].
    rewrite F. f_equal.
    destruct (find_some _ _ F) as [Hk Hkey]. apply key_eqb_eq in Hkey.
    apply character_directory_scanned in Hk as (s' & c' & _ & A').
    destruct (analyze_some _ _ _ _ _ A) as (Hs & Hc & _).
    destruct (analyze_some _ _ _ _ _ A') as (Hs' & Hc' & _).
    unfold char_key in Hkey. injection Hkey as E1 E2.
    assert (s' = s) by congruence. assert (c' = c) by congruence.
    subst. congruence.
Qed.

Example discovery_skips_other_directories :
  map character_id
    (fresh_scan
       (Dir (dir_stat 0)
          [("studio", Dir (dir_stat 0)
             [("Session_1", Dir (dir_stat 0)
                [("bob", Dir (dir_stat 1) [("Base-Image.png", png 4)]);
                 ("Char_a", Dir (dir_stat 2) [("Base-Image.png", png 4)])]);
              (".git", Dir (dir_stat 0)
                [("x", Dir (dir_stat 3) [("Base-Image.png", png 4)])]);
              ("__pycache__", Dir (dir_stat 0)
                [("y", Dir (dir_stat 4) [("Base-Image.png", png 4)])]);
              ("old", Dir (dir_stat 0)
                [("z", Dir (dir_stat 5)
                    [("ConsistencyTests", Dir (dir_stat 0)
                        [("Realistic_001.png", png 4)])]);
                 ("w", Dir (dir_stat 6)
                    [("notes_metadata.json", png 4);
                     ("ConsistencyTests", Dir (dir_stat 0)
                        [("Realistic_001.png", png 4)])])])])])
       [["studio"]])
  = ["w"; "Char_a"].
Proof. reflexivity. Qed.
